(** * dog8myhomework: the "Hello World" service over MySQL (src/main.py)

    A shallow embedding of [get_db_connection], [init_database],
    [populate_facts], [get_random_fact] and the request handler
    [hello_world], followed by the properties of the specification.

    Python's exceptions and the mutable database are threaded through a
    state-and-exception monad.  The MySQL driver (mysql.connector) is not
    part of the repository: it is modelled as a small transactional store
    whose calls can fail according to a fault oracle carried by the world.
    The built-ins [int] and [str.strip] are parameters: the properties
    hold for every interpreter.  Logging and printing to stdout are not
    modelled. *)

From stdpp Require Import base option list strings gmap.
From Stdlib Require Import Ascii ZArith Lia.

#[local] Set Warnings "-register-all".

(** ** Exceptions *)

(** The exception classes the program distinguishes.  [Error] is
    mysql.connector.Error (with its subclasses), as built by [Error(msg)];
    [Exception] stands for every other subclass of Python's Exception.  In
    Python [Error] is itself a subclass of Exception: an
    [except Exception] clause catches both constructors. *)
Inductive exn : Type :=
| Error (msg : string)
| Exception (cls : string) (msg : string).

(** [str(e)].  mysql.connector.Error renders a missing or empty message as
    "Unknown error"; for other exceptions the text is the message. *)
Definition str (e : exn) : string :=
  match e with
  | Error "" => "Unknown error"
  | Error m => m
  | Exception _ m => m
  end.

(** ** The state-and-exception monad *)

Inductive result (A : Type) : Type :=
| Ok (a : A)
| Raise (e : exn).
Arguments Ok {A} a.
Arguments Raise {A} e.

Definition M (S A : Type) : Type := S → result A * S.

Definition ret {S A} (a : A) : M S A := λ s, (Ok a, s).

Definition bind {S A B} (m : M S A) (k : A → M S B) : M S B :=
  λ s, match m s with
       | (Ok a, s') => k a s'
       | (Raise e, s') => (Raise e, s')
       end.

Definition raise {S A} (e : exn) : M S A := λ s, (Raise e, s).

Definition get {S} : M S S := λ s, (Ok s, s).
Definition modify {S} (f : S → S) : M S unit := λ s, (Ok tt, f s).

(** [try: m  except Exception as e: h e] *)
Definition try_except {S A} (m : M S A) (h : exn → M S A) : M S A :=
  λ s, match m s with
       | (Ok a, s') => (Ok a, s')
       | (Raise e, s') => h e s'
       end.

(** [try: m  finally: f].  An exception raised by [f] replaces the
    outcome of [m]. *)
Definition try_finally {S A} (m : M S A) (f : M S unit) : M S A :=
  λ s, match m s with
       | (r, s') =>
           match f s' with
           | (Ok _, s'') => (r, s'')
           | (Raise e, s'') => (Raise e, s'')
           end
       end.

Declare Scope py_scope.
Delimit Scope py_scope with py.
Notation "x <- m ;; k" := (bind m (λ x, k))
  (at level 100, m at next level, right associativity) : py_scope.
Notation "m ;; k" := (bind m (λ _, k))
  (at level 100, right associativity) : py_scope.
Local Open Scope py_scope.

(** ** JSON values of the response *)

Inductive json : Type :=
| JStr (s : string)
| JObj (fields : gmap string json).

(** ** Python built-ins used by the program *)

(** The process environment, [os.environ]. *)
Abbreviation environ := (gmap string string).

(** [os.getenv(key, default)]: a variable that is set wins, even when it
    is set to the empty string. *)
Definition getenv (env : environ) (key default : string) : string :=
  match env !! key with
  | Some v => v
  | None => default
  end.

(** [int] and [str.strip] belong to the interpreter, not to the
    repository; what they accept depends on its version, its Unicode
    tables and its settings.  The program is embedded over an arbitrary
    interpreter: every function and every property below holds whatever
    these built-ins answer. *)
Class Builtins : Type := {
  (** [int(s)] for a text [s]: the integer, or [None] when [int] raises
      ValueError *)
  parse_int : string → option Z;
  (** the text of that ValueError *)
  int_error : string → string;
  (** [s.strip()] *)
  strip : string → string
}.

(** An interpreter for the examples.  It answers as Python does at the
    texts the examples hand to it: int("3306") is 3306 and int("80") is
    80; int("mysql") and int("http") raise ValueError, whose text names
    the argument between single quotes; " 1a2b3c ".strip() is "1a2b3c",
    and "1a2b3c" is its own [strip()].  At other texts it is not meant to
    follow Python: the properties of the program are proved for every
    interpreter, and only the examples run under this one. *)
Definition example_builtins : Builtins := {|
  parse_int s :=
    if decide (s = "3306") then Some 3306%Z
    else if decide (s = "80") then Some 80%Z
    else None;
  int_error s := "invalid literal for int() with base 10: '" +:+ s +:+ "'";
  strip s := if decide (s = " 1a2b3c ") then "1a2b3c" else s
|}.

Section program.

Context {py : Builtins}.

(** [int(s)] as the program calls it. *)
Definition int {S} (s : string) : M S Z :=
  match parse_int s with
  | Some n => ret n
  | None => raise (Exception "ValueError" (int_error s))
  end.

(** Truthiness of an optional string: [None] and [''] are falsy. *)
Definition truthy (o : option string) : bool :=
  match o with
  | Some (String _ _) => true
  | _ => false
  end.

(** [os.path.join(d, name)] for a relative [name] on POSIX. *)
Definition path_join (d name : string) : string :=
  match last (String.list_ascii_of_string d) with
  | None => name
  | Some "/"%char => d +:+ name
  | Some _ => d +:+ "/" +:+ name
  end.

(** ** The database driver *)

(** A column value of a result row. *)
Inductive value : Type :=
| VInt (n : Z)
| VStr (s : string).

(** A result row, a Python tuple. *)
Abbreviation row := (list value).

(** The four SQL statements the program issues:
    - [CREATE_TABLE]: CREATE TABLE IF NOT EXISTS random_facts (...)
    - [SELECT_COUNT]: SELECT COUNT( * ) FROM random_facts
    - [SELECT_RANDOM_FACT]: SELECT fact FROM random_facts ORDER BY RAND() LIMIT 1
    - [INSERT_FACT]: INSERT INTO random_facts (fact) VALUES (%s) *)
Inductive stmt : Type :=
| CREATE_TABLE
| SELECT_COUNT
| SELECT_RANDOM_FACT
| INSERT_FACT.

(** The keyword arguments of [mysql.connector.connect]. *)
Record connect_args : Type := ConnectArgs {
  host : string;
  port : Z;
  database : string;
  user : string;
  password : string;
  connection_timeout : Z;
  autocommit : bool;
  raise_on_warnings : bool
}.

(** The calls made on the driver, in the order they are made.
    Connections and cursors are named by handles. *)
Inductive event : Type :=
| EConnect (a : connect_args)
| ECursor (c : nat)
| EExecute (k : nat) (q : stmt)
| EExecutemany (k : nat) (q : stmt) (params : list row)
| EFetchone (k : nat)
| ECommit (c : nat)
| ERollback (c : nat)
| ECursorClose (k : nat)
| EClose (c : nat).

(** The world outside the process.
    - [table]: the committed rows of random_facts, as the texts of the
      [fact] column in insertion order; [None] when the table is absent.
    - [conns]: the open connections with the inserts they have not
      committed yet.
    - [cursors]: the open cursors, each with its connection and its unread
      result set ([None]: no result set).
    - [faults]: the fault oracle; the [n]-th fallible driver call raises
      [e] when [faults n = Some e].  A call that fails leaves the store as
      it was, but for a batch insert, which may leave a part of the batch
      pending.
    - [rng]: the random source behind RAND().
    - [ticks]: the number of fallible driver calls made so far.
    - [trace]: the driver calls made so far, oldest first. *)
Record world : Type := World {
  table : option (list string);
  conns : gmap nat (list string);
  cursors : gmap nat (nat * option (list row));
  next_handle : nat;
  faults : nat → option exn;
  rng : nat → nat;
  ticks : nat;
  trace : list event
}.

Definition set_table (t : option (list string)) (w : world) : world :=
  World t (conns w) (cursors w) (next_handle w) (faults w) (rng w) (ticks w) (trace w).
Definition set_conns (cs : gmap nat (list string)) (w : world) : world :=
  World (table w) cs (cursors w) (next_handle w) (faults w) (rng w) (ticks w) (trace w).
Definition set_cursors (ks : gmap nat (nat * option (list row))) (w : world) : world :=
  World (table w) (conns w) ks (next_handle w) (faults w) (rng w) (ticks w) (trace w).
Definition set_next_handle (n : nat) (w : world) : world :=
  World (table w) (conns w) (cursors w) n (faults w) (rng w) (ticks w) (trace w).
Definition set_ticks (n : nat) (w : world) : world :=
  World (table w) (conns w) (cursors w) (next_handle w) (faults w) (rng w) n (trace w).
Definition set_trace (t : list event) (w : world) : world :=
  World (table w) (conns w) (cursors w) (next_handle w) (faults w) (rng w) (ticks w) t.

Definition emit (e : event) : M world unit :=
  modify (λ w, set_trace (trace w ++ [e]) w).

(** Consult the fault oracle for the current call. *)
Definition fault : M world (option exn) :=
  λ w, (Ok (faults w (ticks w)), set_ticks (S (ticks w)) w).

Definition fallible : M world unit :=
  f <- fault ;;
  match f with
  | Some e => raise e
  | None => ret tt
  end.

Definition fresh : M world nat :=
  λ w, (Ok (next_handle w), set_next_handle (S (next_handle w)) w).

(** A random index below [n]. *)
Definition random (n : nat) : M world nat :=
  λ w, (Ok (rng w (ticks w) `mod` n)%nat, w).

Definition set_pending (c : nat) (p : list string) : M world unit :=
  modify (λ w, set_conns (<[c := p]> (conns w)) w).

Definition set_result (k c : nat) (r : option (list row)) : M world unit :=
  modify (λ w, set_cursors (<[k := (c, r)]> (cursors w)) w).

(** The connection of cursor [k] and its uncommitted inserts. *)
Definition cursor_conn (k : nat) : M world (nat * list string) :=
  w <- get ;;
  match cursors w !! k with
  | None => raise (Error "Cursor is not connected")
  | Some (c, _) =>
      match conns w !! c with
      | None => raise (Error "MySQL Connection not available")
      | Some p => ret (c, p)
      end
  end.

Definition the_table : M world (list string) :=
  w <- get ;;
  match table w with
  | None => raise (Error "Table 'random_facts' doesn't exist")
  | Some rows => ret rows
  end.

(** [mysql.connector.connect( ** a)]: a fresh connection, with nothing
    pending. *)
Definition connect (a : connect_args) : M world nat :=
  emit (EConnect a) ;;
  fallible ;;
  c <- fresh ;;
  set_pending c [] ;;
  ret c.

(** [c.cursor()] *)
Definition conn_cursor (c : nat) : M world nat :=
  emit (ECursor c) ;;
  fallible ;;
  w <- get ;;
  match conns w !! c with
  | None => raise (Error "MySQL Connection not available")
  | Some _ => k <- fresh ;; set_result k c None ;; ret k
  end.

(** [k.execute(q)].  A statement reads the committed rows and the
    connection's own pending inserts.  CREATE TABLE commits implicitly,
    as data definition statements do in MySQL. *)
Definition cursor_execute (k : nat) (q : stmt) : M world unit :=
  emit (EExecute k q) ;;
  fallible ;;
  cp <- cursor_conn k ;;
  let '(c, p) := cp in
  match q with
  | CREATE_TABLE =>
      w <- get ;;
      modify (set_table (Some (default [] (table w) ++ p))) ;;
      set_pending c [] ;;
      set_result k c None
  | SELECT_COUNT =>
      rows <- the_table ;;
      set_result k c (Some [[VInt (Z.of_nat (length (rows ++ p)))]])
  | SELECT_RANDOM_FACT =>
      rows <- the_table ;;
      i <- random (length (rows ++ p)) ;;
      set_result k c (Some (match (rows ++ p) !! i with
                            | Some f => [[VStr f]]
                            | None => []
                            end))
  | INSERT_FACT =>
      raise (Error "Not enough parameters for the SQL statement")
  end.

(** The texts bound by the parameter rows of an INSERT. *)
Definition fact_params (params : list row) : option (list string) :=
  mapM (λ r, match r with [VStr s] => Some s | _ => None end) params.

(** [k.executemany(q, params)].  When the call fails, a prefix of the
    batch may have been inserted already; it stays pending. *)
Definition cursor_executemany (k : nat) (q : stmt) (params : list row)
  : M world unit :=
  emit (EExecutemany k q params) ;;
  f <- fault ;;
  cp <- cursor_conn k ;;
  let '(c, p) := cp in
  match q, fact_params params with
  | INSERT_FACT, Some fs =>
      the_table ;;
      match f with
      | Some e =>
          i <- random (S (length fs)) ;;
          set_pending c (p ++ take i fs) ;;
          raise e
      | None =>
          set_pending c (p ++ fs) ;;
          set_result k c None
      end
  | _, _ =>
      raise (from_option id (Error "Failed executing the operation") f)
  end.

(** [k.fetchone()] *)
Definition cursor_fetchone (k : nat) : M world (option row) :=
  emit (EFetchone k) ;;
  fallible ;;
  w <- get ;;
  match cursors w !! k with
  | None => raise (Error "Cursor is not connected")
  | Some (c, None) => raise (Error "No result set to fetch from")
  | Some (c, Some []) => ret None
  | Some (c, Some (r :: rs)) => set_result k c (Some rs) ;; ret (Some r)
  end.

(** [c.commit()] *)
Definition conn_commit (c : nat) : M world unit :=
  emit (ECommit c) ;;
  fallible ;;
  w <- get ;;
  match conns w !! c with
  | None => raise (Error "MySQL Connection not available")
  | Some p =>
      modify (set_table ((λ rows, rows ++ p) <$> table w)) ;;
      set_pending c []
  end.

(** [c.rollback()] *)
Definition conn_rollback (c : nat) : M world unit :=
  emit (ERollback c) ;;
  fallible ;;
  w <- get ;;
  match conns w !! c with
  | None => raise (Error "MySQL Connection not available")
  | Some _ => set_pending c []
  end.

(** [k.close()] and [c.close()] do not raise: the driver swallows the
    errors of a disconnect.  Closing a connection discards what it has not
    committed. *)
Definition cursor_close (k : nat) : M world unit :=
  emit (ECursorClose k) ;;
  modify (λ w, set_cursors (delete k (cursors w)) w).

Definition conn_close (c : nat) : M world unit :=
  emit (EClose c) ;;
  modify (λ w, set_conns (delete c (conns w)) w).

(** ** Function bodies and their local variables *)

(** The locals [conn] and [cursor] of a function body.  [None] is both
    "not bound yet" (the test ['conn' in locals()]) and "bound to None"
    (the test [if conn:]); connection and cursor objects are truthy. *)
Record locals : Type := Locals {
  conn : option nat;
  cursor : option nat
}.

Abbreviation F := (M (locals * world)).

(** Call a function or a driver method from a body. *)
Definition call {A} (m : M world A) : F A :=
  λ s, match m s.2 with
       | (r, w') => (r, (s.1, w'))
       end.

Definition local {A} (f : locals → A) : F A := λ s, (Ok (f s.1), s).

Definition assign_conn (c : nat) : F unit :=
  modify (λ s, (Locals (Some c) (cursor s.1), s.2)).

Definition assign_cursor (k : nat) : F unit :=
  modify (λ s, (Locals (conn s.1) (Some k), s.2)).

(** Run a body from the initial locals and drop them on exit. *)
Definition def {A} (body : F A) : M world A :=
  λ w, match body (Locals None None, w) with
       | (r, s) => (r, s.2)
       end.

(** ** The program *)

(** [get_db_connection()], lines 40-75.  Both handlers only log and
    re-raise. *)
Definition get_db_connection (env : environ) : M world nat :=
  let db_host := getenv env "DB_HOST" "localhost" in
  let db_port := getenv env "DB_PORT" "3306" in
  let db_name := getenv env "DB_NAME" "hello_world" in
  let db_user := getenv env "DB_USER" "root" in
  let db_password := getenv env "DB_PASSWORD" "root" in
  try_except
    (p <- int db_port ;;
     conn <- connect {| host := db_host;
                        port := p;
                        database := db_name;
                        user := db_user;
                        password := db_password;
                        connection_timeout := 10;
                        autocommit := false;
                        raise_on_warnings := false |} ;;
     ret conn)
    (λ e, match e with
          | Error _ => raise e
          | Exception _ _ => raise e
          end).

(** The handlers shared by [init_database] and [populate_facts]:
    [except Error] rolls back when a connection is at hand and re-raises,
    [except Exception] re-raises. *)
Definition rollback_and_reraise {A} (e : exn) : F A :=
  match e with
  | Error _ =>
      c <- local conn ;;
      match c with
      | Some c => call (conn_rollback c)
      | None => ret tt
      end ;;
      raise e
  | Exception _ _ => raise e
  end.

(** The [finally] clause of the three database functions. *)
Definition close_all : F unit :=
  k <- local cursor ;;
  match k with
  | Some k => call (cursor_close k)
  | None => ret tt
  end ;;
  c <- local conn ;;
  match c with
  | Some c => call (conn_close c)
  | None => ret tt
  end.

(** The 15 literal facts of [populate_facts], lines 149-165. *)
Definition facts : list string := [
  "The first computer bug was an actual bug - a moth found in the Harvard Mark II computer in 1947.";
  "A group of flamingos is called a 'flamboyance'.";
  "Octopuses have three hearts and blue blood.";
  "Honey never spoils - archaeologists have found 3000-year-old honey that's still edible.";
  "Bananas are berries, but strawberries aren't.";
  "A day on Venus is longer than its year.";
  "Sharks have been around longer than trees.";
  "Wombat poop is cube-shaped.";
  "A single cloud can weigh more than a million pounds.";
  "The human brain uses about 20% of the body's total energy.";
  "Dolphins have names for each other.";
  "A group of owls is called a 'parliament'.";
  "The first email was sent in 1971.";
  "There are more possible games of chess than atoms in the observable universe.";
  "A 'jiffy' is an actual unit of time - 1/100th of a second."
].

(** [t[0]] on the result of [fetchone()]. *)
Definition item0 {S} (t : option row) : M S value :=
  match t with
  | None => raise (Exception "TypeError" "'NoneType' object is not subscriptable")
  | Some [] => raise (Exception "IndexError" "tuple index out of range")
  | Some (v :: _) => ret v
  end.

(** [v > 0] *)
Definition gt0 {S} (v : value) : M S bool :=
  match v with
  | VInt n => ret (0 <? n)%Z
  | VStr _ =>
      raise (Exception "TypeError"
               "'>' not supported between instances of 'str' and 'int'")
  end.

(** [populate_facts()], lines 128-185. *)
Definition populate_facts (env : environ) : M world unit :=
  def
    (try_finally
       (try_except
          (c <- call (get_db_connection env) ;;
           assign_conn c ;;
           k <- call (conn_cursor c) ;;
           assign_cursor k ;;
           call (cursor_execute k SELECT_COUNT) ;;
           t <- call (cursor_fetchone k) ;;
           fact_count <- item0 t ;;
           exist <- gt0 fact_count ;;
           if exist : bool then ret tt
           else
             call (cursor_executemany k INSERT_FACT
                     ((λ fact, [VStr fact]) <$> facts)) ;;
             call (conn_commit c))
          rollback_and_reraise)
       close_all).

(** The first half of the [try] block of [init_database], lines 83-100:
    connect, create the table, commit. *)
Definition init_database_schema (env : environ) : F unit :=
  c <- call (get_db_connection env) ;;
  assign_conn c ;;
  k <- call (conn_cursor c) ;;
  assign_cursor k ;;
  call (cursor_execute k CREATE_TABLE) ;;
  call (conn_commit c).

(** [init_database()], lines 78-125. *)
Definition init_database (env : environ) : M world unit :=
  def
    (try_finally
       (try_except
          (init_database_schema env ;;
           try_except (call (populate_facts env)) (λ e, ret tt))
          rollback_and_reraise)
       close_all).

(** [get_random_fact()], lines 188-214.  The debug line slices
    [result[0][:50]]: a value that is not a text raises there, inside the
    [try]. *)
Definition get_random_fact (env : environ) : M world (option string) :=
  def
    (try_finally
       (try_except
          (c <- call (get_db_connection env) ;;
           assign_conn c ;;
           k <- call (conn_cursor c) ;;
           assign_cursor k ;;
           call (cursor_execute k SELECT_RANDOM_FACT) ;;
           result <- call (cursor_fetchone k) ;;
           match result with
           | Some (VStr s :: _) => ret (Some s)
           | Some (VInt _ :: _) =>
               raise (Exception "TypeError" "'int' object is not subscriptable")
           | Some [] => ret None
           | None => ret None
           end)
          (λ e, match e with
                | Error _ => ret None
                | Exception _ _ => ret None
                end))
       close_all).

(** The files the handler looks at: a path maps to [Some (Some text)] for
    a readable file, to [Some None] for a file that exists but cannot be
    read. *)
Abbreviation files := (gmap string (option string)).

(** The VERSION lookup of [hello_world], lines 252-270; [dir] is
    [os.path.dirname(__file__)]. *)
Definition read_version (dir : string) (fs : files) : option string :=
  let version_file_path := path_join dir "VERSION" in
  let version_file_path :=
    match fs !! version_file_path with
    | Some _ => version_file_path
    | None => "/app/VERSION"
    end in
  match fs !! version_file_path with
  | Some (Some text) => Some (strip text)
  | Some None => None
  | None => None
  end.

Definition placeholder : string :=
  "No facts found in database. Please run the installation script to populate facts.".

(** The response dictionary of [hello_world], lines 273-294. *)
Definition build_response (db_host db_name : string)
    (version db_init_error random_fact : option string) : gmap string json :=
  let response : gmap string json :=
    {[ "message" := JStr "Hello, World!";
       "database" := JObj {[ "host" := JStr db_host; "name" := JStr db_name ]} ]} in
  let response :=
    if truthy version
    then <["version" := JStr (default "" version)]> response
    else response in
  let response :=
    if truthy db_init_error
    then <["status" := JStr "degraded"]>
           (<["error" := JStr ("Database initialization failed: "
                                 +:+ default "" db_init_error)]> response)
    else <["status" := JStr "healthy"]> response in
  if truthy random_fact
  then <["random_fact" := JStr (default "" random_fact)]> response
  else if negb (truthy db_init_error)
       then <["random_fact" := JStr placeholder]> response
       else response.

(** [hello_world()], lines 220-310: the body and the HTTP status. *)
Definition hello_world (env : environ) (dir : string) (fs : files)
  : M world (gmap string json * Z) :=
  let db_host := getenv env "DB_HOST" "localhost" in
  let db_name := getenv env "DB_NAME" "hello_world" in
  try_except
    (db_init_error <-
       try_except (init_database env ;; ret None) (λ e, ret (Some (str e))) ;;
     random_fact <-
       try_except (get_random_fact env) (λ e, ret None) ;;
     let version := read_version dir fs in
     ret (build_response db_host db_name version db_init_error random_fact,
          200%Z))
    (λ e,
       ret ({[ "message" := JStr "Hello, World!";
               "error" := JStr (str e);
               "database" := JObj {[ "host" := JStr db_host;
                                     "name" := JStr db_name ]} ]},
            500%Z)).

(** ** Notions used by the properties *)

(** [int] accepts [DB_PORT] (or its default). *)
Definition port_ok (env : environ) : Prop :=
  is_Some (parse_int (getenv env "DB_PORT" "3306")).

(** No driver call fails. *)
Definition fault_free (w : world) : Prop := ∀ n, faults w n = None.

(** Every driver call fails with a database error. *)
Definition unreachable (w : world) : Prop :=
  ∀ n, ∃ msg, faults w n = Some (Error msg).

(** The parameter rows that a sequence of driver calls asked to insert. *)
Definition inserted (evs : list event) : list row :=
  flat_map (λ e, match e with
                 | EExecutemany _ INSERT_FACT params => params
                 | _ => []
                 end) evs.

(** The connections rolled back by a sequence of driver calls. *)
Definition rollbacks (evs : list event) : list nat :=
  flat_map (λ e, match e with
                 | ERollback c => [c]
                 | _ => []
                 end) evs.

(** The arguments [get_db_connection] is to pass to the driver: each
    setting from its environment variable, or its default. *)
Definition connect_args_of (env : environ) (p : Z) : connect_args :=
  {| host := default "localhost" (env !! "DB_HOST");
     port := p;
     database := default "hello_world" (env !! "DB_NAME");
     user := default "root" (env !! "DB_USER");
     password := default "root" (env !! "DB_PASSWORD");
     connection_timeout := 10;
     autocommit := false;
     raise_on_warnings := false |}.

(** The parameter rows of the batch insert. *)
Definition seed_rows : list row := (λ fact, [VStr fact]) <$> facts.

(** The driver calls of a seeding that goes through, on connection [c]
    with cursor [k]. *)
Definition seeding_calls (a : connect_args) (c k : nat) : list event :=
  [EConnect a; ECursor c; EExecute k SELECT_COUNT; EFetchone k;
   EExecutemany k INSERT_FACT seed_rows; ECommit c;
   ECursorClose k; EClose c].

(** The driver calls of a seeding whose batch insert fails. *)
Definition failed_seeding_calls (a : connect_args) (c k : nat) : list event :=
  [EConnect a; ECursor c; EExecute k SELECT_COUNT; EFetchone k;
   EExecutemany k INSERT_FACT seed_rows; ERollback c;
   ECursorClose k; EClose c].

(** What the handler records of the outcome of [init_database]. *)
Definition init_error (r : result unit) : option string :=
  match r with
  | Ok _ => None
  | Raise e => Some (str e)
  end.

(** [n] successive calls of the seeder. *)
Fixpoint seed_again (env : environ) (n : nat) (w : world) : world :=
  match n with
  | 0 => w
  | S n' => seed_again env n' (populate_facts env w).2
  end.

(** ** Worlds for the examples *)

(** A world with no open connection, table [t] and oracle [f]. *)
Definition a_world (t : option (list string)) (f : nat → option exn) : world :=
  {| table := t; conns := ∅; cursors := ∅; next_handle := 0;
     faults := f; rng := λ n, n; ticks := 0; trace := [] |}.

(** The oracle that fails the [n]-th driver call with [e]. *)
Definition fault_at (n : nat) (e : exn) : nat → option exn :=
  λ i, if decide (i = n) then Some e else None.

Definition no_fault : nat → option exn := λ _, None.

(** The database server cannot be reached. *)
Definition down : world :=
  a_world None (λ _, Some (Error "2003: Can't connect to MySQL server")).

Definition empty_db : world := a_world (Some []) no_fault.
Definition seeded_db : world := a_world (Some facts) no_fault.

(** The arguments of a connection under the default configuration. *)
Definition default_args : connect_args :=
  {| host := "localhost"; port := 3306; database := "hello_world";
     user := "root"; password := "root"; connection_timeout := 10;
     autocommit := false; raise_on_warnings := false |}.

(** The batch insert of the seeder fails on an empty table. *)
Definition insert_fails : world :=
  a_world (Some []) (fault_at 4 (Error "1205: Lock wait timeout exceeded")).

(** The schema is created, then the seeder cannot connect. *)
Definition seeding_fails : world :=
  a_world None (fault_at 4 (Error "2003: Can't connect to MySQL server")).

(** CREATE TABLE fails on an open connection. *)
Definition schema_fails : world :=
  a_world None (fault_at 2 (Error "2013: Lost connection to MySQL server during query")).

(** The first driver call of a request raises a MemoryError, whose text
    is empty; the table holds one fact. *)
Definition out_of_memory : world :=
  a_world (Some ["Wombat poop is cube-shaped."])
          (fault_at 0 (Exception "MemoryError" "")).

(** Every driver call raises a MemoryError, whose text is empty; the
    table holds one fact. *)
Definition exhausted : world :=
  a_world (Some ["Wombat poop is cube-shaped."])
          (λ _, Some (Exception "MemoryError" "")).

(** ** Notions used by the further properties *)

(** The handle allocator is ahead of every open connection and cursor. *)
Definition handles_fresh (w : world) : Prop :=
  ∀ h, next_handle w ≤ h → conns w !! h = None ∧ cursors w !! h = None.

(** The driver calls that only read: everything but CREATE TABLE, the
    batch insert, commit and rollback. *)
Definition is_read (e : event) : bool :=
  match e with
  | EConnect _ | ECursor _ | EFetchone _ | ECursorClose _ | EClose _ => true
  | EExecute _ SELECT_COUNT | EExecute _ SELECT_RANDOM_FACT => true
  | _ => false
  end.

(** The connection attempts among a sequence of driver calls. *)
Definition connections (evs : list event) : list connect_args :=
  flat_map (λ e, match e with
                 | EConnect a => [a]
                 | _ => []
                 end) evs.

(** The text of a version file as the response shows it: stripped, and
    left out when nothing remains. *)
Definition shown (text : option string) : option json :=
  match text with
  | Some t => if decide (strip t = "") then None else Some (JStr (strip t))
  | None => None
  end.

(** The keys a response can hold. *)
Definition response_keys : gset string :=
  {[ "message"; "database"; "status"; "error"; "random_fact"; "version" ]}.

(** ** Start-up *)

(** How the process ends: [main] returns, or [sys.exit(code)]. *)
Inductive ending : Type :=
| Returned
| Exited (code : Z).

Section startup.

(** [app.run(host, port, debug)], the web server of the framework. *)
Variable app_run : string → Z → bool → M world unit.

(** [main()], lines 313-356.  [sys.exit(1)] is the last thing its handler
    does: it is rendered as the value [Exited 1]. *)
Definition main (env : environ) : M world ending :=
  try_except (init_database env) (λ e, ret tt) ;;
  port <- int (getenv env "PORT" "80") ;;
  try_except (app_run "0.0.0.0" port false ;; ret Returned)
             (λ e, ret (Exited 1)).

(** The [if __name__ == "__main__"] block, lines 359-368: an exception
    that leaves [main] ends the process with status 1. *)
Definition script (env : environ) (w : world) : ending * world :=
  match main env w with
  | (Ok x, w') => (x, w')
  | (Raise e, w') => (Exited 1, w')
  end.

End startup.

(** An environment whose DB_PORT is not a number. *)
Definition bad_port : environ := {[ "DB_PORT" := "mysql" ]}.

(** A database server without the table. *)
Definition fresh_db : world := a_world None no_fault.

(** The body and the status of what the handler returned, for the
    examples. *)
Definition body_of (x : result (gmap string json * Z) * world)
  : gmap string json :=
  match x.1 with
  | Ok (body, _) => body
  | Raise _ => ∅
  end.

Definition code_of (x : result (gmap string json * Z) * world) : option Z :=
  match x.1 with
  | Ok (_, code) => Some code
  | Raise _ => None
  end.

(** * Proofs *)

(** ** Symbolic execution *)

(** Unfold the monad, the driver and the program, leaving the maps, the
    lists and the oracle alone. *)
Ltac unfold_py :=
  cbv beta iota zeta delta
    [def try_finally try_except bind ret raise get modify call local
     assign_conn assign_cursor close_all rollback_and_reraise
     get_db_connection populate_facts init_database init_database_schema
     get_random_fact int item0 gt0
     connect conn_cursor cursor_execute cursor_executemany cursor_fetchone
     conn_commit conn_rollback cursor_close conn_close
     emit fault fallible fresh random set_pending set_result cursor_conn
     the_table
     set_table set_conns set_cursors set_next_handle set_ticks set_trace
     table conns cursors next_handle faults rng ticks trace
     conn cursor fst snd].

Ltac finish := unfold_py; rewrite ?lookup_insert_eq, ?app_nil_r.

(** Run the program, splitting on each answer of the oracle [f]. *)
Ltac run f :=
  repeat (finish;
          match goal with
          | |- context [match f ?n with Some _ => _ | None => _ end] =>
              destruct (f n) as [[?|? ?]|] eqn:?
          end);
  finish.

(** The [i]-th driver call of the run is the one that failed. *)
Ltac fault_at_tick i :=
  exists i; eexists; split; [reflexivity | eassumption].

(** The trace of the final world extends the initial one. *)
Ltac trace_extends :=
  first [ by exists []; rewrite app_nil_r
        | eexists; split; [rewrite <- ?app_assoc; reflexivity | reflexivity] ].

(** ** Python built-ins *)

Example path_join_forms :
  path_join "/srv/app" "VERSION" = "/srv/app/VERSION" ∧
  path_join "/" "VERSION" = "/VERSION" ∧ path_join "" "VERSION" = "VERSION".
Proof. repeat split. Qed.

Lemma truthy_spec o : truthy o = true ↔ ∃ s, o = Some s ∧ s ≠ "".
Proof.
  destruct o as [[|a s]|]; simpl; split; try discriminate.
  - intros (s & [= <-] & Hs). done.
  - intros _. eexists; split; [reflexivity | discriminate].
  - done.
  - intros (s & [=] & _).
Qed.

Lemma truthy_Some s : s ≠ "" → truthy (Some s) = true.
Proof. intros. apply truthy_spec. eauto. Qed.

Lemma str_Error_nonempty msg : str (Error msg) ≠ "".
Proof. destruct msg; discriminate. Qed.

Lemma getenv_default env key d : getenv env key d = default d (env !! key).
Proof. unfold getenv. by destruct (env !! key). Qed.

Lemma fact_params_seed :
  fact_params ((λ fact, [VStr fact]) <$> facts) = Some facts.
Proof. reflexivity. Qed.

Lemma facts_count : length facts = 15 ∧ NoDup facts.
Proof. split; [reflexivity|]. apply (bool_decide_unpack _). by vm_compute. Qed.

(** ** The response dictionary *)

Section response.
Context (db_host db_name : string).
Context (version db_init_error random_fact : option string).

Local Ltac by_cases :=
  unfold build_response;
  destruct version as [[|??]|], db_init_error as [[|??]|],
           random_fact as [[|??]|]; reflexivity.

Lemma response_message :
  build_response db_host db_name version db_init_error random_fact
    !! "message" = Some (JStr "Hello, World!").
Proof. by_cases. Qed.

Lemma response_database :
  build_response db_host db_name version db_init_error random_fact
    !! "database" =
    Some (JObj {[ "host" := JStr db_host; "name" := JStr db_name ]}).
Proof. by_cases. Qed.

Lemma response_status :
  build_response db_host db_name version db_init_error random_fact
    !! "status" =
    Some (JStr (if truthy db_init_error then "degraded" else "healthy")).
Proof. by_cases. Qed.

Lemma response_error :
  build_response db_host db_name version db_init_error random_fact
    !! "error" =
    if truthy db_init_error
    then Some (JStr ("Database initialization failed: "
                       +:+ default "" db_init_error))
    else None.
Proof. by_cases. Qed.

Lemma response_random_fact :
  build_response db_host db_name version db_init_error random_fact
    !! "random_fact" =
    if truthy random_fact then JStr <$> random_fact
    else if truthy db_init_error then None
    else Some (JStr placeholder).
Proof. by_cases. Qed.
End response.

(** ** The clean-up never raises *)

Lemma close_all_ok s : ∃ s', close_all s = (Ok tt, s') ∧ table s'.2 = table s.2.
Proof. destruct s as [[[c|] [k|]] w]; eexists; split; reflexivity. Qed.

(** ** The connection provider *)

(** C8.  [get_db_connection] calls the driver once, with the host, port,
    database, user and password read from DB_HOST, DB_PORT, DB_NAME,
    DB_USER and DB_PASSWORD, defaulting to "localhost", "3306",
    "hello_world", "root" and "root", and with a connect timeout of 10
    seconds; the port is the integer [p] that [int] makes of the text of
    DB_PORT.  When the driver fails with [e], the function raises that
    same [e] to its caller and opens nothing; otherwise it returns the new
    connection. *)
Theorem get_db_connection_contract env w p :
  parse_int (default "3306" (env !! "DB_PORT")) = Some p →
  ∃ w',
    trace w' = trace w ++ [EConnect (connect_args_of env p)] ∧
    connection_timeout (connect_args_of env p) = 10%Z ∧
    connect_args_of ∅ 3306 = default_args ∧
    default "3306" ((∅ : environ) !! "DB_PORT") = "3306" ∧
    match faults w (ticks w) with
    | Some e =>
        get_db_connection env w = (Raise e, w') ∧
        conns w' = conns w ∧ table w' = table w
    | None =>
        get_db_connection env w = (Ok (next_handle w), w') ∧
        conns w' !! next_handle w = Some []
    end.
Proof.
  destruct w as [t cs ks nh f rn tk tr]. rewrite <- getenv_default. intros Hp.
  unfold_py. rewrite Hp. finish.
  destruct (f tk) as [[m|c m]|]; finish.
  all: eexists; split; [|split; [reflexivity|split; [reflexivity|split; [reflexivity|]]]].
  all: try (split; [reflexivity|]); simpl.
  all: rewrite ?lookup_insert_eq; try done.
  all: unfold connect_args_of; rewrite <- !getenv_default; reflexivity.
Qed.

(** X15.  When [int] rejects the text of DB_PORT, its ValueError leaves
    [get_db_connection] before the driver is called: the world is left as
    it was. *)
Lemma get_db_connection_bad_port env w :
  parse_int (getenv env "DB_PORT" "3306") = None →
  get_db_connection env w =
    (Raise (Exception "ValueError" (int_error (getenv env "DB_PORT" "3306"))),
     w).
Proof. intros Hp. unfold_py. rewrite Hp. reflexivity. Qed.

(** ** The fact reader *)

(** The runs of [get_random_fact].  It returns a fact after four driver
    calls that all went through, the fact being the row RAND() picked;
    otherwise it returns [None]: the port is not an integer, the table is
    missing or empty, or a driver call failed, which was then the last
    one. *)
Lemma get_random_fact_cases env w :
  ∃ o w', get_random_fact env w = (Ok o, w') ∧
    match o with
    | Some f =>
        ∃ rows, table w = Some rows ∧
          rows !! (rng w (3 + ticks w) `mod` length rows)%nat = Some f ∧
          ticks w' = 4 + ticks w ∧
          ∀ i, i < 4 → faults w (i + ticks w) = None
    | None =>
        ¬ port_ok env ∨ table w = None ∨ table w = Some [] ∨
        ∃ i e, ticks w' = S (i + ticks w) ∧
               faults w (i + ticks w) = Some e
    end.
Proof.
  destruct w as [t cs ks nh f rn tk tr]. unfold port_ok.
  unfold_py.
  destruct (parse_int _) as [p|].
  - destruct t as [rows|]. all: run f.
    all: match goal with
         | |- context [?l !! ?i] => destruct (l !! i) eqn:Hrow
         | _ => idtac
         end.
    all: finish.
    all: do 2 eexists; split; [reflexivity|]; simpl.
    all: try (right; right; right;
              first [ fault_at_tick 0 | fault_at_tick 1
                    | fault_at_tick 2 | fault_at_tick 3 ]).
    all: try (right; left; reflexivity).
    all: try (exists rows; repeat split; try done;
              intros i Hi; destruct i as [|[|[|[|]]]]; simpl; try done; lia).
    right; right; left. destruct rows as [|x rows]; [done|]. exfalso.
    apply lookup_ge_None in Hrow. revert Hrow.
    apply Nat.lt_nge, Nat.mod_upper_bound. simpl; lia.
  - unfold_py. do 2 eexists; split; [reflexivity|]. left. by intros [? [=]].
Qed.

(** C2.  [get_random_fact] never raises.  A fact it returns is the text
    of a row of the table; on an empty table, when the table is missing
    and whenever a driver call of the run fails, it returns [None], the
    "no fact" value; on a non-empty table, when no driver call fails (and
    the port is an integer), it returns the text of one row. *)
Theorem get_random_fact_never_raises env w r w' :
  get_random_fact env w = (r, w') →
  ∃ o, r = Ok o ∧
    (∀ f, o = Some f → ∃ rows, table w = Some rows ∧ f ∈ rows) ∧
    (table w = Some [] → o = None) ∧
    (table w = None → o = None) ∧
    (∀ n e, ticks w ≤ n < ticks w' → faults w n = Some e → o = None) ∧
    (∀ rows, table w = Some rows → rows ≠ [] → port_ok env →
       (∀ n, ticks w ≤ n < ticks w' → faults w n = None) →
       ∃ f, o = Some f ∧ f ∈ rows).
Proof.
  intros Hg.
  destruct (get_random_fact_cases env w) as (o & w'' & Hrun & Hcase).
  rewrite Hrun in Hg. injection Hg as <- <-.
  exists o. split; [done|].
  destruct o as [f|].
  - destruct Hcase as (rows & Ht & Hrow & Htk & Hnone).
    apply list_elem_of_lookup_2 in Hrow.
    split; [intros ? [= <-]; by exists rows|].
    split; [rewrite Ht; intros [= ->]; by apply not_elem_of_nil in Hrow|].
    split; [by rewrite Ht|].
    split.
    + intros n e Hn Hf. rewrite Htk in Hn.
      specialize (Hnone (n - ticks w) ltac:(lia)).
      replace (n - ticks w + ticks w) with n in Hnone by lia. congruence.
    + intros rows' Ht' _ _ _. exists f. split; [done | congruence].
  - split; [by intros ? [=]|]. repeat (split; [done|]).
    intros rows Ht Hne Hport Hn. exfalso.
    destruct Hcase as [Hbad|[Hnone|[Hempty|(i & e & Htk & Hf)]]];
      [done | congruence | congruence |].
    rewrite Hn in Hf by lia. discriminate.
Qed.

(** ** The seeder *)

(** A call of the seeder on a non-empty table. *)
Lemma populate_facts_gate env w r w' rows :
  table w = Some rows → rows ≠ [] →
  populate_facts env w = (r, w') →
  table w' = table w ∧
  ∃ evs, trace w' = trace w ++ evs ∧ inserted evs = [].
Proof.
  destruct w as [t cs ks nh f rn tk tr]. simpl. intros -> Hne.
  assert ((0 <? Z.of_nat (length rows))%Z = true) as Hcount.
  { apply Z.ltb_lt. destruct rows; [done | simpl; lia]. }
  unfold_py.
  destruct (parse_int _) as [p|].
  all: run f.
  all: rewrite ?Hcount; finish.
  all: intros [= <- <-]; simpl; split; [reflexivity|].
  all: trace_extends.
Qed.

(** C3.  On a non-empty table a call of [populate_facts] leaves the table
    as it is and asks the driver for no insert, whatever the driver calls
    answer; and so does any number of successive calls: once the table is
    non-empty the seeder never inserts again. *)
Theorem populate_facts_count_gated env w rows :
  table w = Some rows → rows ≠ [] →
  (∀ r w', populate_facts env w = (r, w') →
     table w' = table w ∧
     ∃ evs, trace w' = trace w ++ evs ∧ inserted evs = []) ∧
  (∀ n, table (seed_again env n w) = table w ∧
     ∃ evs, trace (seed_again env n w) = trace w ++ evs ∧ inserted evs = []).
Proof.
  intros Ht Hne. split; [intros r w'; by apply populate_facts_gate with rows|].
  intros n. revert w Ht. induction n as [|n IH]; intros w Ht; simpl.
  - split; [done|]. exists []. by rewrite app_nil_r.
  - destruct (populate_facts env w) as [r w1] eqn:Hp.
    destruct (populate_facts_gate _ _ _ _ _ Ht Hne Hp)
      as (Ht1 & evs1 & Htr1 & Hins1).
    rewrite Ht in Ht1.
    destruct (IH w1 Ht1) as (Ht2 & evs2 & Htr2 & Hins2). simpl.
    split; [congruence|].
    exists (evs1 ++ evs2). rewrite Htr2, Htr1, app_assoc. split; [done|].
    unfold inserted in *. by rewrite flat_map_app, Hins1, Hins2.
Qed.

(** Whatever the driver calls answer, a call of the seeder commits all
    the facts or nothing. *)
Lemma populate_facts_all_or_nothing env w r w' :
  populate_facts env w = (r, w') →
  table w' = table w ∨ (r = Ok tt ∧ table w = Some [] ∧ table w' = Some facts).
Proof.
  destruct w as [t cs ks nh f rn tk tr]. simpl.
  unfold_py.
  destruct (parse_int _) as [p|], t as [rows|].
  all: run f.
  all: try (intros [= <- <-]; simpl; auto; fail).
  all: destruct (0 <? _)%Z eqn:Hc; finish.
  all: try (intros [= <- <-]; simpl; auto; fail).
  all: rewrite fact_params_seed; finish.
  all: try (intros [= <- <-]; simpl; auto; fail).
  all: run f.
  all: try (intros [= <- <-]; simpl; auto; fail).
  all: intros [= <- <-]; simpl; right.
  all: apply Z.ltb_ge in Hc; destruct rows; [done | simpl in Hc; lia].
Qed.

(** C4.  When no driver call fails, seeding an empty table makes one
    batch insert of the 15 literal facts, in their order, then commits:
    the table then holds exactly these facts.  On a table so seeded,
    [get_random_fact] never returns anything but one of the 15 facts, and
    returns one of them when no driver call fails. *)
Theorem populate_facts_seeds_fifteen env w p :
  parse_int (getenv env "DB_PORT" "3306") = Some p →
  fault_free w →
  table w = Some [] →
  ∃ w', populate_facts env w = (Ok tt, w') ∧
    table w' = Some facts ∧
    length facts = 15 ∧ NoDup facts ∧
    trace w' = trace w ++ seeding_calls (connect_args_of env p)
                            (next_handle w) (S (next_handle w)) ∧
    inserted (seeding_calls (connect_args_of env p)
                (next_handle w) (S (next_handle w)))
      = (λ fact, [VStr fact]) <$> facts ∧
    ∀ w2 r w3,
      table w2 = table w' →
      get_random_fact env w2 = (r, w3) →
      ∃ o, r = Ok o ∧
        (∀ f, o = Some f → f ∈ facts) ∧
        (fault_free w2 → ∃ f, o = Some f ∧ f ∈ facts).
Proof.
  intros Hp Hf Ht.
  assert (∃ w', populate_facts env w = (Ok tt, w') ∧
            table w' = Some facts ∧
            trace w' = trace w ++ seeding_calls (connect_args_of env p)
                                    (next_handle w) (S (next_handle w)))
    as (w' & Hrun & Ht' & Htr).
  { destruct w as [t cs ks nh f rn tk tr]. unfold fault_free in Hf.
    simpl in *. subst t.
    unfold_py. rewrite Hp.
    repeat (finish;
            first [ rewrite Hf
                  | progress change (0 <? Z.of_nat (length (@nil string)))%Z
                      with false
                  | rewrite fact_params_seed ]).
    finish.
    eexists; split; [reflexivity|]. simpl. split; [reflexivity|].
    rewrite <- !app_assoc. unfold connect_args_of.
    rewrite <- !getenv_default. reflexivity. }
  exists w'. destruct facts_count as [Hlen Hnodup].
  repeat (split; [done|]).
  intros w2 r w3 Ht2 Hg. rewrite Ht' in Ht2.
  destruct (get_random_fact_cases env w2) as (o & w3' & Hrun2 & Hcase).
  rewrite Hrun2 in Hg. injection Hg as <- <-.
  exists o. split; [done|].
  destruct o as [f|].
  - destruct Hcase as (rows & Hrows & Hrow & _).
    assert (f ∈ facts) as Hin.
    { apply list_elem_of_lookup_2 in Hrow. congruence. }
    split; [by intros ? [= <-] | by exists f].
  - split; [by intros ? [=]|]. intros Hf2. exfalso.
    destruct Hcase as [Hbad|[Hnone|[Hempty|(i & e & _ & Hf')]]].
    + apply Hbad. by eexists.
    + congruence.
    + rewrite Ht2 in Hempty. discriminate.
    + rewrite Hf2 in Hf'. discriminate.
Qed.

(** C10.  Seeding an empty table is atomic.  Whatever the driver calls
    answer, the table ends up empty or holding all the facts.  When the
    batch insert fails with a database error, [populate_facts] calls
    rollback on its connection right after the failed insert, closes the
    cursor and the connection, and raises; the table is still empty and
    nothing is left pending.  The exception raised is the error of the
    insert when the rollback goes through. *)
Theorem populate_facts_atomic env w :
  table w = Some [] →
  (∀ r w', populate_facts env w = (r, w') →
     table w' = Some [] ∨ (r = Ok tt ∧ table w' = Some facts)) ∧
  (∀ p msg,
     parse_int (getenv env "DB_PORT" "3306") = Some p →
     (∀ i, i < 4 → faults w (i + ticks w) = None) →
     faults w (4 + ticks w) = Some (Error msg) →
     ∃ e w', populate_facts env w = (Raise e, w') ∧
       table w' = Some [] ∧
       conns w' !! next_handle w = None ∧
       trace w' = trace w ++ failed_seeding_calls (connect_args_of env p)
                               (next_handle w) (S (next_handle w)) ∧
       (faults w (5 + ticks w) = None → e = Error msg)).
Proof.
  intros Ht. split.
  - intros r w' Hrun.
    destruct (populate_facts_all_or_nothing _ _ _ _ Hrun) as [H|(? & _ & ?)].
    + left. congruence.
    + by right.
  - destruct w as [t cs ks nh f rn tk tr]. simpl in *. subst t.
    intros p msg Hp Hf H4.
    pose proof (Hf 0 ltac:(lia)) as H0. pose proof (Hf 1 ltac:(lia)) as H1.
    pose proof (Hf 2 ltac:(lia)) as H2. pose proof (Hf 3 ltac:(lia)) as H3.
    simpl in H0, H1, H2, H3. clear Hf.
    unfold_py. rewrite Hp.
    repeat (finish;
            first [ rewrite H0 | rewrite H1 | rewrite H2 | rewrite H3
                  | rewrite H4
                  | progress change (0 <? Z.of_nat (length (@nil string)))%Z
                      with false
                  | rewrite fact_params_seed ]).
    finish.
    destruct (f (S (S (S (S (S tk)))))) as [e|] eqn:H5; finish.
    all: do 2 eexists; split; [reflexivity|]; simpl.
    all: split; [reflexivity|]; split; [apply lookup_delete_eq|].
    all: split; [|done].
    all: rewrite <- !app_assoc; unfold connect_args_of;
         rewrite <- !getenv_default; reflexivity.
Qed.

(** ** Schema initialization *)

Lemma init_database_after_schema env w l1 w1 :
  init_database_schema env (Locals None None, w) = (Ok tt, (l1, w1)) →
  ∃ w3, init_database env w = (Ok tt, w3) ∧
        table w3 = table (populate_facts env w1).2.
Proof.
  intros Hs. unfold init_database, def, try_finally.
  unfold try_except at 1. unfold bind at 1. rewrite Hs.
  unfold try_except, call; simpl.
  destruct (populate_facts env w1) as [[[]|e] w2]; simpl.
  all: destruct (close_all_ok (l1, w2)) as (s' & -> & Ht).
  all: eexists; split; [reflexivity | done].
Qed.

(** The schema step itself never rolls back; it ends without a connection
    exactly when the connection provider raised. *)
Lemma init_database_schema_error env w e l w1 :
  init_database_schema env (Locals None None, w) = (Raise e, (l, w1)) →
  ∃ evs, trace w1 = trace w ++ evs ∧ rollbacks evs = [] ∧
    (conn l = None ↔ ∃ w0, get_db_connection env w = (Raise e, w0)).
Proof.
  destruct w as [t cs ks nh f rn tk tr]. simpl.
  unfold_py.
  destruct (parse_int _) as [p|].
  all: run f.
  all: intros [= <- <- <-]; simpl.
  all: first [ exists []; split; [by rewrite app_nil_r|]
             | eexists; split; [rewrite <- ?app_assoc; reflexivity|] ].
  all: split; [reflexivity|].
  all: split; [intros ?; try done; eauto | intros [? [=]]; try done].
Qed.

(** What [init_database] does once the schema step has raised a database
    error. *)
Lemma init_database_on_error env w msg l w1 :
  init_database_schema env (Locals None None, w)
    = (Raise (Error msg), (l, w1)) →
  ∃ e w' evs, init_database env w = (Raise e, w') ∧
    trace w' = trace w1 ++ evs ∧
    rollbacks evs = option_list (conn l) ∧
    ((∀ c, conn l = Some c → (conn_rollback c w1).1 = Ok tt) → e = Error msg).
Proof.
  intros Hs. unfold init_database, def, try_finally.
  unfold try_except at 1. unfold bind at 1. rewrite Hs.
  destruct l as [[c|] k], w1 as [t cs ks nh f rn tk tr].
  - unfold_py. destruct (f tk) as [e|] eqn:F; finish.
    2: destruct (cs !! c) eqn:C; finish.
    all: destruct k as [k|]; finish.
    all: do 3 eexists; split; [reflexivity|]; simpl.
    all: split; [rewrite <- ?app_assoc; reflexivity|].
    all: split; [reflexivity|].
    all: try done.
    all: intros H; specialize (H c eq_refl); revert H;
         unfold_py; rewrite ?F; finish; rewrite ?C; done.
  - unfold_py. destruct k as [k|]; finish.
    all: do 2 eexists.
    2: exists []. 1: eexists.
    all: split; [reflexivity|]; simpl.
    all: split; [first [by rewrite app_nil_r | reflexivity] | done].
Qed.

(** ** The request handler *)

(** The handler in one equation: both calls are wrapped so that nothing
    they raise escapes, and the status is 200. *)
Lemma hello_world_eq env dir fs w :
  hello_world env dir fs w =
    (Ok (build_response (getenv env "DB_HOST" "localhost")
           (getenv env "DB_NAME" "hello_world")
           (read_version dir fs)
           (init_error (init_database env w).1)
           (match (get_random_fact env (init_database env w).2).1 with
            | Ok o => o
            | Raise _ => None
            end),
         200%Z),
     (get_random_fact env (init_database env w).2).2).
Proof.
  unfold hello_world, try_except, bind, ret; simpl.
  destruct (init_database env w) as [[[]|e] w1]; simpl;
    destruct (get_random_fact env w1) as [[o|e'] w2]; reflexivity.
Qed.

Lemma get_random_fact_ok env w : ∃ o, (get_random_fact env w).1 = Ok o.
Proof.
  destruct (get_random_fact_cases env w) as (o & w' & -> & _). eauto.
Qed.

Lemma init_database_unreachable env w :
  port_ok env → unreachable w →
  ∃ e w', init_database env w = (Raise e, w') ∧ str e ≠ "" ∧ unreachable w'.
Proof.
  destruct w as [t cs ks nh f rn tk tr]. unfold port_ok, unreachable. simpl.
  intros [p Hp] Hf. unfold_py. rewrite Hp. finish.
  destruct (Hf tk) as [msg ->]. finish.
  do 2 eexists; split; [reflexivity|]. split; [apply str_Error_nonempty|done].
Qed.

Lemma get_random_fact_unreachable env w :
  unreachable w → (get_random_fact env w).1 = Ok None.
Proof.
  destruct w as [t cs ks nh f rn tk tr]. unfold unreachable. simpl. intros Hf.
  unfold_py. destruct (parse_int _) as [p|]; finish; [|done].
  destruct (Hf tk) as [msg ->]. by finish.
Qed.

(** Every request is answered with status 200.  When every driver call
    fails with a database error (mysql.connector.Error, whose text is
    never empty), the body has status "degraded", an "error" text that is
    not empty, and no "random_fact". *)
Lemma hello_world_always_200 env dir fs w :
  ∃ body w',
    hello_world env dir fs w = (Ok (body, 200%Z), w') ∧
    (port_ok env → unreachable w →
       body !! "status" = Some (JStr "degraded") ∧
       (∃ s, body !! "error" = Some (JStr s) ∧ s ≠ "") ∧
       body !! "random_fact" = None).
Proof.
  rewrite hello_world_eq. do 2 eexists. split; [reflexivity|].
  intros Hp Hdown.
  destruct (init_database_unreachable env w Hp Hdown)
    as (e & w1 & -> & He & Hdown1).
  simpl. rewrite (get_random_fact_unreachable env w1 Hdown1).
  rewrite response_status, response_error, response_random_fact.
  rewrite (truthy_Some _ He). simpl.
  split; [done|]. split; [|done].
  eexists; split; [reflexivity | discriminate].
Qed.

(** X16.  What the payload holds on every request: the greeting, the
    database host and name, the status "healthy" when [init_database]
    returned and "degraded", with the error text, when it raised an
    exception whose text is not empty, and an "error" exactly when the
    status is "degraded". *)
Lemma hello_world_payload env dir fs w :
  ∃ body w',
    hello_world env dir fs w = (Ok (body, 200%Z), w') ∧
    body !! "message" = Some (JStr "Hello, World!") ∧
    body !! "database" =
      Some (JObj {[ "host" := JStr (default "localhost" (env !! "DB_HOST"));
                    "name" := JStr (default "hello_world" (env !! "DB_NAME")) ]}) ∧
    ((init_database env w).1 = Ok tt →
       body !! "status" = Some (JStr "healthy")) ∧
    (∀ e, (init_database env w).1 = Raise e → str e ≠ "" →
       body !! "status" = Some (JStr "degraded") ∧
       body !! "error" =
         Some (JStr ("Database initialization failed: " +:+ str e))) ∧
    (is_Some (body !! "error") ↔ body !! "status" = Some (JStr "degraded")).
Proof.
  rewrite hello_world_eq. do 2 eexists. split; [reflexivity|].
  rewrite response_message, response_database, response_status, response_error.
  rewrite !getenv_default.
  split; [done|]. split; [done|].
  split; [by intros ->|].
  split.
  - intros e He Hne. rewrite He. cbn [init_error default].
    by rewrite (truthy_Some _ Hne).
  - destruct (truthy _); split; done.
Qed.

(** C6.  When the schema step of [init_database] goes through and the
    seeder then raises, whatever the exception, [init_database] returns
    normally, and the request is answered 200 with status "healthy" and
    no "error". *)
Theorem init_database_survives_seeding_failure env w l1 w1 e w2 :
  init_database_schema env (Locals None None, w) = (Ok tt, (l1, w1)) →
  populate_facts env w1 = (Raise e, w2) →
  (∃ w3, init_database env w = (Ok tt, w3) ∧ table w3 = table w2) ∧
  ∀ dir fs, ∃ body w',
    hello_world env dir fs w = (Ok (body, 200%Z), w') ∧
    body !! "status" = Some (JStr "healthy") ∧
    body !! "error" = None.
Proof.
  intros Hs Hp.
  destruct (init_database_after_schema _ _ _ _ Hs) as (w3 & Hi & Ht).
  rewrite Hp in Ht. split; [by exists w3|].
  intros dir fs. rewrite hello_world_eq, Hi. do 2 eexists.
  split; [reflexivity|].
  by rewrite response_status, response_error.
Qed.

(** C7, amended.  When the schema step of [init_database] raises a
    database error, [init_database] raises to its caller.  If the
    connection had been opened, it calls rollback on it, once, before
    that; if the error came from the connection provider, it calls no
    rollback.  The exception raised is the database error itself when the
    rollback goes through.  The request handler catches the exception:
    the request is answered 200, with status "degraded" when the text of
    the exception is not empty. *)
Theorem init_database_rollback_when_connected env w msg l w1 :
  init_database_schema env (Locals None None, w)
    = (Raise (Error msg), (l, w1)) →
  ∃ e w' evs,
    init_database env w = (Raise e, w') ∧
    trace w' = trace w ++ evs ∧
    rollbacks evs = option_list (conn l) ∧
    (conn l = None ↔
       ∃ w0, get_db_connection env w = (Raise (Error msg), w0)) ∧
    ((∀ c, conn l = Some c → (conn_rollback c w1).1 = Ok tt) →
     e = Error msg) ∧
    ∀ dir fs, ∃ body w'',
      hello_world env dir fs w = (Ok (body, 200%Z), w'') ∧
      (str e ≠ "" → body !! "status" = Some (JStr "degraded")).
Proof.
  intros Hs.
  destruct (init_database_schema_error _ _ _ _ _ Hs) as (evs1 & Htr1 & Hr1 & Hconn).
  destruct (init_database_on_error _ _ _ _ _ Hs) as (e & w' & evs2 & Hi & Htr2 & Hr2 & He).
  exists e, w', (evs1 ++ evs2).
  split; [done|]. split; [by rewrite Htr2, Htr1, app_assoc|].
  split; [unfold rollbacks in *; by rewrite flat_map_app, Hr1, Hr2|].
  split; [done|]. split; [done|].
  intros dir fs. rewrite hello_world_eq, Hi. do 2 eexists.
  split; [reflexivity|].
  intros Hne. rewrite response_status. cbn [init_error fst].
  by rewrite (truthy_Some _ Hne).
Qed.

(** C9.  With [o] the value returned by [get_random_fact]: when the
    status is "healthy" the body has a "random_fact", which is the fact
    retrieved when there is one and the placeholder text otherwise; the
    body has no "random_fact" exactly when the status is "degraded" and
    no fact was retrieved.  A fact is retrieved when [o] is a text that is
    not empty. *)
Theorem hello_world_random_fact_field env dir fs w :
  ∃ body w' o,
    hello_world env dir fs w = (Ok (body, 200%Z), w') ∧
    (get_random_fact env (init_database env w).2).1 = Ok o ∧
    (body !! "status" = Some (JStr "healthy") →
       body !! "random_fact" =
         Some (JStr (if truthy o then default "" o
                     else "No facts found in database. Please run the installation script to populate facts."))) ∧
    (body !! "random_fact" = None ↔
       body !! "status" = Some (JStr "degraded") ∧ truthy o = false).
Proof.
  rewrite hello_world_eq.
  destruct (get_random_fact_ok env (init_database env w).2) as [o Ho].
  do 2 eexists. exists o. split; [reflexivity|]. split; [done|].
  rewrite Ho, response_status, response_random_fact.
  destruct o as [[|a s]|], (truthy (init_error _)); simpl.
  all: split; [done|]; split; try done.
  all: by intros [? ?].
Qed.

(** * Further properties *)

(** ** More symbolic execution *)

(** The maps of handles are back to what they were. *)
Ltac closed_again Hfresh :=
  apply map_eq; intros ?j;
  rewrite ?lookup_delete, ?lookup_insert;
  repeat case_decide; subst; try done;
  symmetry; apply Hfresh; lia.

(** Compute [default] and [<$>] on an option that is known. *)
Ltac opt_simpl :=
  repeat match goal with
         | |- context [from_option ?g ?d (Some ?x)] =>
             change (from_option g d (Some x)) with (g x)
         | |- context [from_option ?g ?d None] =>
             change (from_option g d None) with d
         | |- context [fmap ?g (Some ?x)] =>
             change (fmap g (Some x)) with (Some (g x))
         end;
  cbv beta delta [id].

(** Run the program, splitting on the oracle [f] and on the count gate. *)
Ltac run_all f :=
  repeat (finish; opt_simpl;
          match goal with
          | |- context [match f ?n with Some _ => _ | None => _ end] =>
              destruct (f n) as [[?|? ?]|] eqn:?
          | |- context [if (0 <? ?n)%Z then _ else _] =>
              destruct (0 <? n)%Z eqn:?
          | |- context [fact_params (_ <$> facts)] => rewrite fact_params_seed
          end);
  finish; opt_simpl.

(** Name the calls the run added to the trace. *)
Ltac trace_grows :=
  first [ exists []; split; [by rewrite app_nil_r|]
        | eexists; split; [rewrite <- ?app_assoc; reflexivity|] ].

(** ** What each database function leaves behind *)

Lemma handles_fresh_later w w' :
  handles_fresh w → conns w' = conns w → cursors w' = cursors w →
  next_handle w ≤ next_handle w' → handles_fresh w'.
Proof.
  intros Hw Hc Hk Hn h Hh. rewrite Hc, Hk. apply Hw. lia.
Qed.

Lemma connections_app evs1 evs2 :
  connections (evs1 ++ evs2) = connections evs1 ++ connections evs2.
Proof. apply flat_map_app. Qed.

Lemma facts_nonempty f : f ∈ facts → f ≠ "".
Proof.
  revert f. apply Forall_forall.
  apply (bool_decide_unpack _). by vm_compute.
Qed.

Lemma get_random_fact_frame env w r w' :
  get_random_fact env w = (r, w') →
  table w' = table w ∧ faults w' = faults w ∧ rng w' = rng w ∧
  next_handle w ≤ next_handle w' ∧
  (∃ evs, trace w' = trace w ++ evs ∧ forallb is_read evs = true ∧
          length (connections evs) ≤ 1) ∧
  (handles_fresh w → conns w' = conns w ∧ cursors w' = cursors w).
Proof.
  destruct w as [t cs ks nh f rn tk tr]. unfold handles_fresh. simpl.
  unfold_py.
  destruct (parse_int _) as [p|], t as [rows|].
  all: run f.
  all: repeat match goal with
         | |- context [match ?l !! ?i with Some _ => _ | None => _ end] =>
             destruct (l !! i) eqn:?; finish
         end.
  all: intros [= <- <-]; simpl.
  all: repeat (split; [first [reflexivity | lia]|]).
  all: split; [trace_grows; split; [reflexivity | simpl; lia]|].
  all: intros Hfresh; split; [try reflexivity | try reflexivity].
  all: closed_again Hfresh.
Qed.

Lemma populate_facts_frame env w r w' :
  populate_facts env w = (r, w') →
  faults w' = faults w ∧ rng w' = rng w ∧
  next_handle w ≤ next_handle w' ∧
  (∃ evs, trace w' = trace w ++ evs ∧ length (connections evs) ≤ 1) ∧
  (handles_fresh w → conns w' = conns w ∧ cursors w' = cursors w).
Proof.
  destruct w as [t cs ks nh f rn tk tr]. unfold handles_fresh. simpl.
  unfold_py.
  destruct (parse_int _) as [p|], t as [rows|].
  all: run_all f.
  all: intros [= <- <-]; simpl.
  all: repeat (split; [first [reflexivity | lia]|]).
  all: split; [trace_grows; simpl; lia|].
  all: intros Hfresh; split; [try reflexivity | try reflexivity].
  all: closed_again Hfresh.
Qed.

Lemma init_database_frame env w r w' :
  init_database env w = (r, w') →
  faults w' = faults w ∧ rng w' = rng w ∧
  next_handle w ≤ next_handle w' ∧
  (∃ evs, trace w' = trace w ++ evs ∧
     length (connections evs) ≤ 2 ∧
     (inserted evs = [] ∨
      (default [] (table w) = [] ∧ inserted evs = seed_rows))) ∧
  (r = Ok tt → table w' ≠ None) ∧
  (table w' = table w ∨ table w' = Some (default [] (table w)) ∨
   (default [] (table w) = [] ∧ table w' = Some facts)) ∧
  (handles_fresh w → conns w' = conns w ∧ cursors w' = cursors w).
Proof.
  destruct w as [t cs ks nh f rn tk tr]. unfold handles_fresh. simpl.
  unfold_py.
  destruct (parse_int _) as [p|], t as [rows|].
  all: run_all f.
  all: intros [= <- <-]; simpl.
  all: try match goal with
           | H : (0 <? Z.of_nat (length ?l))%Z = false |- _ =>
               apply Z.ltb_ge in H; destruct l; [|simpl in H; lia]
           end.
  all: repeat (split; [first [reflexivity | lia]|]).
  all: split; [trace_grows; split; [simpl; lia|];
                 first [left; reflexivity | right; split; reflexivity]|].
  all: split; [done|].
  all: split.
  all: try (intros Hfresh; split; [try reflexivity | try reflexivity];
            closed_again Hfresh).
  all: try (left; reflexivity).
  all: try (right; left; reflexivity).
  all: right; right; split; reflexivity.
Qed.

(** When no driver call fails, initialization of a database whose table is
    missing or empty creates the table and seeds it. *)
Lemma init_database_seeds env w :
  port_ok env → fault_free w →
  table w = None ∨ table w = Some [] →
  ∃ w', init_database env w = (Ok tt, w') ∧ table w' = Some facts.
Proof.
  intros [p Hp] Hf Ht.
  destruct w as [t cs ks nh f rn tk tr]. unfold fault_free in Hf. simpl in *.
  destruct Ht as [-> | ->].
  all: unfold_py; rewrite Hp.
  all: repeat (finish; opt_simpl;
          first [ rewrite Hf
                | progress change (0 <? Z.of_nat (length (@nil string)))%Z
                    with false
                | rewrite fact_params_seed ]).
  all: finish; opt_simpl.
  all: eexists; split; reflexivity.
Qed.

(** ** The fact reader, further *)

(** X1.  [get_random_fact] only reads: whatever the driver calls answer,
    the table is as before, and the calls it makes are connect, cursor,
    the SELECT, fetchone and the two closes, never CREATE TABLE, an
    insert, a commit or a rollback. *)
Theorem get_random_fact_read_only env w r w' :
  get_random_fact env w = (r, w') →
  table w' = table w ∧
  ∃ evs, trace w' = trace w ++ evs ∧ forallb is_read evs = true.
Proof.
  intros Hg.
  destruct (get_random_fact_frame _ _ _ _ Hg)
    as (Ht & _ & _ & _ & (evs & Htr & Hread & _) & _).
  split; [done|]. by exists evs.
Qed.

(** X2.  [get_random_fact] releases what it acquires: on every exit path
    the connection and the cursor it opened are closed, so the open
    connections and cursors are those of before the call. *)
Theorem get_random_fact_releases env w r w' :
  handles_fresh w →
  get_random_fact env w = (r, w') →
  conns w' = conns w ∧ cursors w' = cursors w ∧ handles_fresh w'.
Proof.
  intros Hw Hg.
  destruct (get_random_fact_frame _ _ _ _ Hg) as (_ & _ & _ & Hn & _ & Hrel).
  destruct (Hrel Hw) as [Hc Hk].
  eauto using handles_fresh_later.
Qed.

(** ** The seeder, further *)

(** X3.  [populate_facts] releases what it acquires, on every exit path:
    the early return of the count gate, the commit, and each failure,
    also when the rollback itself fails. *)
Theorem populate_facts_releases env w r w' :
  handles_fresh w →
  populate_facts env w = (r, w') →
  conns w' = conns w ∧ cursors w' = cursors w ∧ handles_fresh w'.
Proof.
  intros Hw Hp.
  destruct (populate_facts_frame _ _ _ _ Hp) as (_ & _ & Hn & _ & Hrel).
  destruct (Hrel Hw) as [Hc Hk].
  eauto using handles_fresh_later.
Qed.

(** ** Schema initialization, further *)

(** X4.  [init_database] releases what it acquires, and so does the
    seeder it calls: whatever happens, no connection and no cursor stays
    open. *)
Theorem init_database_releases env w r w' :
  handles_fresh w →
  init_database env w = (r, w') →
  conns w' = conns w ∧ cursors w' = cursors w ∧ handles_fresh w'.
Proof.
  intros Hw Hi.
  destruct (init_database_frame _ _ _ _ Hi)
    as (_ & _ & Hn & _ & _ & _ & Hrel).
  destruct (Hrel Hw) as [Hc Hk].
  eauto using handles_fresh_later.
Qed.

(** X5.  What [init_database] can do to the table, whatever the driver
    calls answer.  Rows that exist are never removed or changed: a
    non-empty table is left as it is and nothing is inserted.  An empty
    table stays empty or receives the whole seed; a missing table stays
    missing, is created empty, or is created and seeded.  When
    [init_database] returns normally the table exists. *)
Theorem init_database_table env w r w' :
  init_database env w = (r, w') →
  (∀ rows, table w = Some rows → rows ≠ [] →
     table w' = Some rows ∧
     ∃ evs, trace w' = trace w ++ evs ∧ inserted evs = []) ∧
  (table w = Some [] → table w' = Some [] ∨ table w' = Some facts) ∧
  (table w = None →
     table w' = None ∨ table w' = Some [] ∨ table w' = Some facts) ∧
  (r = Ok tt → table w' ≠ None).
Proof.
  intros Hi.
  destruct (init_database_frame _ _ _ _ Hi)
    as (_ & _ & _ & (evs & Htr & _ & Hins) & Hok & Ht & _).
  split; [|split; [|split]].
  - intros rows Hrows Hne. rewrite Hrows in *. simpl in *. split.
    + destruct Ht as [Ht|[Ht|[Ht _]]]; congruence.
    + exists evs. split; [done|]. destruct Hins as [?|[? _]]; congruence.
  - intros Hrows. rewrite Hrows in *. simpl in *.
    destruct Ht as [Ht|[Ht|[_ Ht]]]; auto.
  - intros Hrows. rewrite Hrows in *. simpl in *.
    destruct Ht as [Ht|[Ht|[_ Ht]]]; auto.
  - done.
Qed.

(** X6.  On a database whose table is missing or empty, when no driver
    call fails, [init_database] returns normally and leaves the table
    holding the 15 facts.  Any further [init_database] on that table, in
    whatever state [w2] the driver then is (any fault oracle, any open
    handles) and under whatever environment, leaves these rows as they
    are and inserts nothing. *)
Theorem init_database_fresh env w :
  port_ok env → fault_free w →
  table w = None ∨ table w = Some [] →
  ∃ w', init_database env w = (Ok tt, w') ∧
    table w' = Some facts ∧
    ∀ env2 w2 r w'', table w2 = table w' →
      init_database env2 w2 = (r, w'') →
      table w'' = Some facts ∧
      ∃ evs, trace w'' = trace w2 ++ evs ∧ inserted evs = [].
Proof.
  intros Hp Hf Ht.
  destruct (init_database_seeds env w Hp Hf Ht) as (w' & Hi & Ht').
  exists w'. split; [done|]. split; [done|].
  intros env2 w2 r w'' Hw2 Hi2.
  destruct (init_database_frame _ _ _ _ Hi2)
    as (_ & _ & _ & (evs & Htr & _ & Hins) & _ & Ht2 & _).
  rewrite Hw2, Ht' in *. simpl in *. split.
  - destruct Ht2 as [?|[?|[? _]]]; [done | done | discriminate].
  - exists evs. split; [done|].
    destruct Hins as [?|[? _]]; [done | discriminate].
Qed.

(** ** The request handler, further *)

(** X7.  A request releases what it acquires: whatever the driver calls
    answer, the connections and cursors open after [hello_world] are those
    open before it. *)
Theorem hello_world_releases env dir fs w r w' :
  handles_fresh w →
  hello_world env dir fs w = (r, w') →
  conns w' = conns w ∧ cursors w' = cursors w ∧ handles_fresh w'.
Proof.
  intros Hw. rewrite hello_world_eq.
  destruct (init_database env w) as [ri w1] eqn:Hi. simpl.
  destruct (get_random_fact env w1) as [rg w2] eqn:Hg. simpl.
  intros [= _ <-].
  destruct (init_database_frame _ _ _ _ Hi)
    as (_ & _ & Hn1 & _ & _ & _ & Hrel1).
  destruct (Hrel1 Hw) as [Hc1 Hk1].
  assert (handles_fresh w1) as Hw1 by eauto using handles_fresh_later.
  destruct (get_random_fact_frame _ _ _ _ Hg) as (_ & _ & _ & Hn2 & _ & Hrel2).
  destruct (Hrel2 Hw1) as [Hc2 Hk2].
  split; [congruence|]. split; [congruence|].
  eauto using handles_fresh_later.
Qed.

(** X8.  The fact a response shows is the placeholder or the text of a
    row the table holds when the request ends; and a request leaves a
    non-empty table exactly as it was, whatever the driver calls
    answer. *)
Theorem hello_world_fact_from_table env dir fs w :
  ∃ body w',
    hello_world env dir fs w = (Ok (body, 200%Z), w') ∧
    (∀ s, body !! "random_fact" = Some (JStr s) →
       s = placeholder ∨ ∃ rows, table w' = Some rows ∧ s ∈ rows) ∧
    (∀ rows, table w = Some rows → rows ≠ [] → table w' = Some rows).
Proof.
  rewrite hello_world_eq.
  destruct (init_database env w) as [ri w1] eqn:Hi. simpl.
  destruct (get_random_fact_cases env w1) as (o & w2 & Hg & Hcase).
  rewrite Hg. simpl. do 2 eexists. split; [reflexivity|].
  destruct (get_random_fact_frame _ _ _ _ Hg) as (Ht2 & _).
  split.
  - intros s. rewrite response_random_fact.
    destruct o as [[|a f]|]; simpl.
    + destruct (truthy _); [done | intros [= <-]; by left].
    + intros [= <-]. right.
      destruct Hcase as (rows & Hrows & Hrow & _).
      exists rows. split; [congruence | by eapply list_elem_of_lookup_2].
    + destruct (truthy _); [done | intros [= <-]; by left].
  - intros rows Hrows Hne.
    destruct (init_database_frame _ _ _ _ Hi)
      as (_ & _ & _ & _ & _ & Ht1 & _).
    rewrite Hrows in Ht1. simpl in Ht1. rewrite Ht2.
    destruct Ht1 as [?|[?|[? _]]]; congruence.
Qed.

(** X9.  The first request on a database whose table is missing or empty,
    when no driver call fails: the table is created and seeded, the
    response is healthy, has no error, and shows one of the 15 facts. *)
Theorem hello_world_fresh_database env dir fs w :
  port_ok env → fault_free w →
  table w = None ∨ table w = Some [] →
  ∃ body w' f,
    hello_world env dir fs w = (Ok (body, 200%Z), w') ∧
    table w' = Some facts ∧
    body !! "status" = Some (JStr "healthy") ∧
    body !! "error" = None ∧
    body !! "random_fact" = Some (JStr f) ∧ f ∈ facts.
Proof.
  intros Hp Hf Ht.
  destruct (init_database_seeds env w Hp Hf Ht) as (w1 & Hi & Ht1).
  destruct (init_database_frame _ _ _ _ Hi) as (Hf1 & _).
  destruct (get_random_fact_cases env w1) as (o & w2 & Hg & Hcase).
  destruct (get_random_fact_frame _ _ _ _ Hg) as (Ht2 & _).
  assert (∃ f, o = Some f ∧ f ∈ facts) as (f & -> & Hin).
  { destruct o as [f|].
    - destruct Hcase as (rows & Hrows & Hrow & _).
      exists f. split; [done|]. apply list_elem_of_lookup_2 in Hrow. congruence.
    - exfalso. destruct Hcase as [?|[?|[Hempty|(i & e & _ & He)]]];
        [done | congruence | rewrite Ht1 in Hempty; discriminate |].
      rewrite Hf1, Hf in He. discriminate. }
  exists (build_response (getenv env "DB_HOST" "localhost")
            (getenv env "DB_NAME" "hello_world") (read_version dir fs)
            None (Some f)), w2, f.
  rewrite hello_world_eq, Hi. simpl. rewrite Hg. simpl.
  split; [done|]. split; [congruence|].
  rewrite response_status, response_error, response_random_fact.
  rewrite (truthy_Some f (facts_nonempty f Hin)). done.
Qed.

(** X10.  When [int] rejects the text of DB_PORT, with a ValueError whose
    text is not empty, no driver call is made at all: the request leaves
    the world as it was and is answered 200, "degraded", with the text of
    that ValueError after "Database initialization failed: ", and without
    a fact. *)
Theorem hello_world_bad_port env dir fs w :
  parse_int (getenv env "DB_PORT" "3306") = None →
  int_error (getenv env "DB_PORT" "3306") ≠ "" →
  ∃ body,
    hello_world env dir fs w = (Ok (body, 200%Z), w) ∧
    body !! "status" = Some (JStr "degraded") ∧
    body !! "error" =
      Some (JStr ("Database initialization failed: "
                  +:+ int_error (getenv env "DB_PORT" "3306"))) ∧
    body !! "random_fact" = None.
Proof.
  intros Hp Hne.
  assert (init_database env w =
            (Raise (Exception "ValueError"
                      (int_error (getenv env "DB_PORT" "3306"))), w)) as Hi.
  { destruct w. unfold_py. rewrite Hp. finish. reflexivity. }
  assert (get_random_fact env w = (Ok None, w)) as Hg.
  { destruct w. unfold_py. rewrite Hp. finish. reflexivity. }
  eexists. rewrite hello_world_eq, Hi. simpl. rewrite Hg. simpl.
  split; [reflexivity|].
  rewrite response_status, response_error, response_random_fact.
  rewrite (truthy_Some _ Hne). repeat split.
Qed.

(** ** The version marker *)

Lemma response_version db_host db_name version db_init_error random_fact :
  build_response db_host db_name version db_init_error random_fact
    !! "version" = if truthy version then JStr <$> version else None.
Proof.
  unfold build_response.
  destruct version as [[|??]|], db_init_error as [[|??]|],
           random_fact as [[|??]|]; reflexivity.
Qed.

(** X11.  The "version" of a response is what [strip()] makes of the text
    of the VERSION file beside the program when that file exists,
    otherwise of /app/VERSION; it is left out when the file chosen cannot
    be read or when [strip()] leaves nothing of its text.  So a file
    beside the program that is unreadable or blank hides /app/VERSION.  A
    version that is shown is never empty. *)
Theorem hello_world_version_field env dir fs w :
  ∃ body w',
    hello_world env dir fs w = (Ok (body, 200%Z), w') ∧
    body !! "version" =
      match fs !! path_join dir "VERSION" with
      | Some beside => shown beside
      | None => shown (mjoin (fs !! "/app/VERSION"))
      end ∧
    (∀ v, body !! "version" = Some (JStr v) → v ≠ "").
Proof.
  rewrite hello_world_eq. do 2 eexists. split; [reflexivity|].
  rewrite response_version.
  assert (∀ o : option string,
            (if truthy (strip <$> o) then JStr <$> (strip <$> o) else None)
            = shown o) as Hshown.
  { intros [t|]; simpl; [|done].
    destruct (decide (strip t = "")) as [E|E]; [by rewrite E|].
    by destruct (strip t). }
  assert (read_version dir fs =
            strip <$> match fs !! path_join dir "VERSION" with
                      | Some beside => beside
                      | None => mjoin (fs !! "/app/VERSION")
                      end) as ->.
  { unfold read_version.
    destruct (fs !! path_join dir "VERSION") as [[t|]|] eqn:Hl;
      rewrite ?Hl; try done.
    by destruct (fs !! "/app/VERSION") as [[t|]|]. }
  rewrite Hshown. split.
  - by destruct (fs !! path_join dir "VERSION").
  - intros v. generalize (match fs !! path_join dir "VERSION" with
                          | Some beside => beside
                          | None => mjoin (fs !! "/app/VERSION")
                          end).
    intros [t|]; simpl; [|done]. case_decide; [done|]. by intros [= <-].
Qed.

(** X12.  The keys of a response: always "message", "database" and
    "status", possibly "error", "random_fact" and "version", and nothing
    else; the status is "healthy" or "degraded". *)
Theorem hello_world_keys env dir fs w :
  ∃ body w',
    hello_world env dir fs w = (Ok (body, 200%Z), w') ∧
    dom body ⊆ response_keys ∧
    {[ "message"; "database"; "status" ]} ⊆ dom body ∧
    (body !! "status" = Some (JStr "healthy") ∨
     body !! "status" = Some (JStr "degraded")).
Proof.
  rewrite hello_world_eq. do 2 eexists. split; [reflexivity|].
  rewrite response_status.
  generalize (read_version dir fs) (init_error (init_database env w).1).
  intros version db_init_error.
  destruct (match (get_random_fact env (init_database env w).2).1 with
            | Ok o => o
            | Raise _ => None
            end) as [[|??]|];
    destruct version as [[|??]|], db_init_error as [[|??]|]; simpl.
  all: split; [apply (bool_decide_unpack _); by vm_compute|].
  all: split; [apply (bool_decide_unpack _); by vm_compute|].
  all: auto.
Qed.

(** X13.  A request makes one pass and never retries: whatever the driver
    calls answer, it attempts at most three connections, two of them at
    most during initialization (schema and seeder) and one to read the
    fact. *)
Theorem hello_world_connects_thrice env dir fs w :
  ∃ evs1 evs2,
    trace (init_database env w).2 = trace w ++ evs1 ∧
    trace (hello_world env dir fs w).2 = trace w ++ evs1 ++ evs2 ∧
    length (connections evs1) ≤ 2 ∧
    length (connections evs2) ≤ 1 ∧
    length (connections (evs1 ++ evs2)) ≤ 3.
Proof.
  rewrite hello_world_eq.
  destruct (init_database env w) as [ri w1] eqn:Hi. simpl.
  destruct (get_random_fact env w1) as [rg w2] eqn:Hg. simpl.
  destruct (init_database_frame _ _ _ _ Hi)
    as (_ & _ & _ & (evs1 & Htr1 & Hc1 & _) & _).
  destruct (get_random_fact_frame _ _ _ _ Hg)
    as (_ & _ & _ & _ & (evs2 & Htr2 & _ & Hc2) & _).
  exists evs1, evs2.
  split; [done|]. split; [by rewrite Htr2, Htr1, app_assoc|].
  split; [done|]. split; [done|].
  rewrite connections_app, length_app. lia.
Qed.

(** ** Start-up, further *)


End program.

(** * The program at work *)

(** The runs below are those of the program under the interpreter of the
    examples. *)
#[local] Existing Instance example_builtins.

(** ** The connection provider *)

Lemma get_db_connection_contract_witness :
  ∃ w',
    trace w' = trace down ++ [EConnect (connect_args_of ∅ 3306)] ∧
    connection_timeout (connect_args_of ∅ 3306) = 10%Z ∧
    connect_args_of ∅ 3306 = default_args ∧
    default "3306" ((∅ : environ) !! "DB_PORT") = "3306" ∧
    match faults down (ticks down) with
    | Some e =>
        get_db_connection ∅ down = (Raise e, w') ∧
        conns w' = conns down ∧ table w' = table down
    | None =>
        get_db_connection ∅ down = (Ok (next_handle down), w') ∧
        conns w' !! next_handle down = Some []
    end.
Proof. apply (get_db_connection_contract ∅ down 3306). reflexivity. Defined.

Lemma get_db_connection_bad_port_witness :
  get_db_connection bad_port seeded_db =
    (Raise (Exception "ValueError"
              (int_error (getenv bad_port "DB_PORT" "3306"))),
     seeded_db).
Proof.
  apply (get_db_connection_bad_port bad_port seeded_db). reflexivity.
Defined.

(** ** The fact reader *)

Lemma get_random_fact_never_raises_witness :
  ∃ o, (get_random_fact ∅ seeded_db).1 = Ok o ∧
    (∀ f, o = Some f → ∃ rows, table seeded_db = Some rows ∧ f ∈ rows) ∧
    (table seeded_db = Some [] → o = None) ∧
    (table seeded_db = None → o = None) ∧
    (∀ n e, ticks seeded_db ≤ n < ticks (get_random_fact ∅ seeded_db).2 →
       faults seeded_db n = Some e → o = None) ∧
    (∀ rows, table seeded_db = Some rows → rows ≠ [] → port_ok ∅ →
       (∀ n, ticks seeded_db ≤ n < ticks (get_random_fact ∅ seeded_db).2 →
          faults seeded_db n = None) →
       ∃ f, o = Some f ∧ f ∈ rows).
Proof.
  apply (get_random_fact_never_raises ∅ seeded_db). vm_compute. reflexivity.
Defined.

Example get_random_fact_seeded :
  (get_random_fact ∅ seeded_db).1 =
    Ok (Some "Honey never spoils - archaeologists have found 3000-year-old honey that's still edible.").
Proof. reflexivity. Qed.

Example get_random_fact_empty : (get_random_fact ∅ empty_db).1 = Ok None.
Proof. reflexivity. Qed.

Example get_random_fact_down : (get_random_fact ∅ down).1 = Ok None.
Proof. reflexivity. Qed.

Lemma get_random_fact_read_only_witness :
  table (get_random_fact ∅ seeded_db).2 = table seeded_db ∧
  ∃ evs, trace (get_random_fact ∅ seeded_db).2 = trace seeded_db ++ evs ∧
         forallb is_read evs = true.
Proof.
  apply (get_random_fact_read_only ∅ seeded_db (get_random_fact ∅ seeded_db).1).
  vm_compute. reflexivity.
Defined.

Lemma get_random_fact_releases_witness :
  conns (get_random_fact ∅ seeded_db).2 = conns seeded_db ∧
  cursors (get_random_fact ∅ seeded_db).2 = cursors seeded_db ∧
  handles_fresh (get_random_fact ∅ seeded_db).2.
Proof.
  apply (get_random_fact_releases ∅ seeded_db (get_random_fact ∅ seeded_db).1).
  - intros h _. split; reflexivity.
  - vm_compute. reflexivity.
Defined.

(** ** The seeder *)

Lemma populate_facts_count_gated_witness :
  (∀ r w', populate_facts ∅ seeded_db = (r, w') →
     table w' = table seeded_db ∧
     ∃ evs, trace w' = trace seeded_db ++ evs ∧ inserted evs = []) ∧
  (∀ n, table (seed_again ∅ n seeded_db) = table seeded_db ∧
     ∃ evs, trace (seed_again ∅ n seeded_db) = trace seeded_db ++ evs ∧
            inserted evs = []).
Proof.
  apply (populate_facts_count_gated ∅ seeded_db facts).
  - reflexivity.
  - discriminate.
Defined.

Example populate_facts_seeded :
  (populate_facts ∅ seeded_db).1 = Ok tt ∧
  table (populate_facts ∅ seeded_db).2 = Some facts ∧
  trace (populate_facts ∅ seeded_db).2
    = [EConnect default_args; ECursor 0; EExecute 1 SELECT_COUNT;
       EFetchone 1; ECursorClose 1; EClose 0].
Proof. repeat split. Qed.

Lemma populate_facts_seeds_fifteen_witness :
  ∃ w', populate_facts ∅ empty_db = (Ok tt, w') ∧
    table w' = Some facts ∧
    length facts = 15 ∧ NoDup facts ∧
    trace w' = trace empty_db ++ seeding_calls (connect_args_of ∅ 3306)
                                   (next_handle empty_db)
                                   (S (next_handle empty_db)) ∧
    inserted (seeding_calls (connect_args_of ∅ 3306)
                (next_handle empty_db) (S (next_handle empty_db)))
      = (λ fact, [VStr fact]) <$> facts ∧
    ∀ w2 r w3,
      table w2 = table w' →
      get_random_fact ∅ w2 = (r, w3) →
      ∃ o, r = Ok o ∧
        (∀ f, o = Some f → f ∈ facts) ∧
        (fault_free w2 → ∃ f, o = Some f ∧ f ∈ facts).
Proof.
  apply (populate_facts_seeds_fifteen ∅ empty_db 3306).
  - reflexivity.
  - intros n. reflexivity.
  - reflexivity.
Defined.

Lemma populate_facts_atomic_witness :
  (∀ r w', populate_facts ∅ insert_fails = (r, w') →
     table w' = Some [] ∨ (r = Ok tt ∧ table w' = Some facts)) ∧
  ∃ e w', populate_facts ∅ insert_fails = (Raise e, w') ∧
    table w' = Some [] ∧
    conns w' !! next_handle insert_fails = None ∧
    trace w' = trace insert_fails ++
                 failed_seeding_calls (connect_args_of ∅ 3306)
                   (next_handle insert_fails) (S (next_handle insert_fails)) ∧
    (faults insert_fails (5 + ticks insert_fails) = None →
     e = Error "1205: Lock wait timeout exceeded").
Proof.
  destruct (populate_facts_atomic ∅ insert_fails eq_refl) as [Hall Hfail].
  split; [exact Hall|].
  apply (Hfail 3306%Z "1205: Lock wait timeout exceeded").
  - reflexivity.
  - intros i Hi. simpl. unfold fault_at. case_decide; [lia | done].
  - reflexivity.
Defined.

Lemma populate_facts_releases_witness :
  conns (populate_facts ∅ insert_fails).2 = conns insert_fails ∧
  cursors (populate_facts ∅ insert_fails).2 = cursors insert_fails ∧
  handles_fresh (populate_facts ∅ insert_fails).2.
Proof.
  apply (populate_facts_releases ∅ insert_fails
           (populate_facts ∅ insert_fails).1).
  - intros h _. split; reflexivity.
  - vm_compute. reflexivity.
Defined.

(** ** Schema initialization *)

Lemma init_database_survives_seeding_failure_witness :
  ∃ l1 w1 e w2,
    init_database_schema ∅ (Locals None None, seeding_fails)
      = (Ok tt, (l1, w1)) ∧
    populate_facts ∅ w1 = (Raise e, w2) ∧
    (∃ w3, init_database ∅ seeding_fails = (Ok tt, w3) ∧
           table w3 = table w2) ∧
    ∀ dir fs, ∃ body w',
      hello_world ∅ dir fs seeding_fails = (Ok (body, 200%Z), w') ∧
      body !! "status" = Some (JStr "healthy") ∧
      body !! "error" = None.
Proof.
  do 4 eexists.
  split; [vm_compute; reflexivity|].
  split; [vm_compute; reflexivity|].
  eapply (init_database_survives_seeding_failure ∅ seeding_fails);
    vm_compute; reflexivity.
Defined.

(** C7, as stated, fails when the connection cannot be opened: the
    database error is raised again, but there is no connection to roll
    back, and the only driver call made is the connection attempt. *)
Lemma init_database_connect_failure_no_rollback :
  ∃ w',
    init_database ∅ down
      = (Raise (Error "2003: Can't connect to MySQL server"), w') ∧
    trace w' = [EConnect default_args] ∧
    rollbacks (trace w') = [].
Proof.
  eexists. split; [vm_compute; reflexivity|]. split; reflexivity.
Qed.

Lemma init_database_rollback_when_connected_witness :
  ∃ l w1,
    init_database_schema ∅ (Locals None None, schema_fails)
      = (Raise (Error "2013: Lost connection to MySQL server during query"),
         (l, w1)) ∧
    conn l = Some 0 ∧
    ∃ e w' evs,
      init_database ∅ schema_fails = (Raise e, w') ∧
      trace w' = trace schema_fails ++ evs ∧
      rollbacks evs = option_list (conn l) ∧
      (conn l = None ↔
         ∃ w0, get_db_connection ∅ schema_fails
                 = (Raise (Error "2013: Lost connection to MySQL server during query"), w0)) ∧
      ((∀ c, conn l = Some c → (conn_rollback c w1).1 = Ok tt) →
       e = Error "2013: Lost connection to MySQL server during query") ∧
      ∀ dir fs, ∃ body w'',
        hello_world ∅ dir fs schema_fails = (Ok (body, 200%Z), w'') ∧
        (str e ≠ "" → body !! "status" = Some (JStr "degraded")).
Proof.
  do 2 eexists.
  split; [vm_compute; reflexivity|].
  split; [reflexivity|].
  eapply (init_database_rollback_when_connected ∅ schema_fails).
  vm_compute. reflexivity.
Defined.

Example init_database_schema_fails :
  (init_database ∅ schema_fails).1
    = Raise (Error "2013: Lost connection to MySQL server during query") ∧
  trace (init_database ∅ schema_fails).2
    = [EConnect default_args; ECursor 0; EExecute 1 CREATE_TABLE;
       ERollback 0; ECursorClose 1; EClose 0].
Proof. split; reflexivity. Qed.

Lemma init_database_releases_witness :
  conns (init_database ∅ schema_fails).2 = conns schema_fails ∧
  cursors (init_database ∅ schema_fails).2 = cursors schema_fails ∧
  handles_fresh (init_database ∅ schema_fails).2.
Proof.
  apply (init_database_releases ∅ schema_fails
           (init_database ∅ schema_fails).1).
  - intros h _. split; reflexivity.
  - vm_compute. reflexivity.
Defined.

Lemma init_database_table_witness :
  (∀ rows, table seeded_db = Some rows → rows ≠ [] →
     table (init_database ∅ seeded_db).2 = Some rows ∧
     ∃ evs, trace (init_database ∅ seeded_db).2
              = trace seeded_db ++ evs ∧ inserted evs = []) ∧
  (table seeded_db = Some [] →
     table (init_database ∅ seeded_db).2 = Some [] ∨
     table (init_database ∅ seeded_db).2 = Some facts) ∧
  (table seeded_db = None →
     table (init_database ∅ seeded_db).2 = None ∨
     table (init_database ∅ seeded_db).2 = Some [] ∨
     table (init_database ∅ seeded_db).2 = Some facts) ∧
  ((init_database ∅ seeded_db).1 = Ok tt →
   table (init_database ∅ seeded_db).2 ≠ None).
Proof.
  apply (init_database_table ∅ seeded_db (init_database ∅ seeded_db).1).
  vm_compute. reflexivity.
Defined.

Lemma init_database_fresh_witness :
  ∃ w', init_database ∅ fresh_db = (Ok tt, w') ∧
    table w' = Some facts ∧
    ∀ env2 w2 r w'', table w2 = table w' →
      init_database env2 w2 = (r, w'') →
      table w'' = Some facts ∧
      ∃ evs, trace w'' = trace w2 ++ evs ∧ inserted evs = [].
Proof.
  apply (init_database_fresh ∅ fresh_db).
  - by eexists.
  - intros n. reflexivity.
  - left. reflexivity.
Defined.

(** ** The request handler *)

Example hello_world_server_down :
  ∃ body w',
    hello_world ∅ "/app" ∅ down = (Ok (body, 200%Z), w') ∧
    body !! "status" = Some (JStr "degraded") ∧
    (∃ s, body !! "error" = Some (JStr s) ∧ s ≠ "") ∧
    body !! "random_fact" = None.
Proof.
  destruct (hello_world_always_200 ∅ "/app" ∅ down) as (body & w' & Hrun & Hbody).
  exists body, w'. split; [exact Hrun|].
  apply Hbody; [by eexists|]. intros n. eexists. reflexivity.
Qed.

(** C1.  A request is answered 200 also when every database operation
    fails, but the body is not always the degraded one.  When every
    driver call raises an exception whose text is empty, as MemoryError()
    does, [init_database] raises and [get_random_fact] gives no fact, yet
    the response is "healthy", has no "error", and carries the
    placeholder. *)
Theorem hello_world_all_operations_fail :
  (∀ n, faults exhausted n = Some (Exception "MemoryError" "")) ∧
  (init_database ∅ exhausted).1 = Raise (Exception "MemoryError" "") ∧
  (get_random_fact ∅ (init_database ∅ exhausted).2).1 = Ok None ∧
  (let x := hello_world ∅ "/app" ∅ exhausted in
   code_of x = Some 200%Z ∧
   body_of x !! "status" = Some (JStr "healthy") ∧
   body_of x !! "error" = None ∧
   body_of x !! "random_fact" = Some (JStr placeholder)).
Proof.
  split; [intros n; reflexivity|].
  split; [vm_compute; reflexivity|].
  split; [vm_compute; reflexivity|].
  cbv zeta. repeat split; vm_compute; reflexivity.
Qed.

(** C5.  A request whose initialization fails with an exception of empty
    text is reported as "healthy", with no "error": the handler keeps
    [str(e)] and tests it for truth. *)
Theorem hello_world_empty_error_text :
  (init_database ∅ out_of_memory).1 = Raise (Exception "MemoryError" "") ∧
  ∃ body w',
    hello_world ∅ "/app" ∅ out_of_memory = (Ok (body, 200%Z), w') ∧
    body !! "status" = Some (JStr "healthy") ∧
    body !! "error" = None ∧
    body !! "random_fact" = Some (JStr "Wombat poop is cube-shaped.").
Proof.
  split; [reflexivity|].
  do 2 eexists. split; [vm_compute; reflexivity|].
  repeat split.
Qed.

Lemma hello_world_releases_witness :
  conns (hello_world ∅ "/app" ∅ fresh_db).2 = conns fresh_db ∧
  cursors (hello_world ∅ "/app" ∅ fresh_db).2 = cursors fresh_db ∧
  handles_fresh (hello_world ∅ "/app" ∅ fresh_db).2.
Proof.
  apply (hello_world_releases ∅ "/app" ∅ fresh_db
           (hello_world ∅ "/app" ∅ fresh_db).1).
  - intros h _. split; reflexivity.
  - vm_compute. reflexivity.
Defined.

Lemma hello_world_fresh_database_witness :
  ∃ body w' f,
    hello_world ∅ "/app" ∅ fresh_db = (Ok (body, 200%Z), w') ∧
    table w' = Some facts ∧
    body !! "status" = Some (JStr "healthy") ∧
    body !! "error" = None ∧
    body !! "random_fact" = Some (JStr f) ∧ f ∈ facts.
Proof.
  apply (hello_world_fresh_database ∅ "/app" ∅ fresh_db).
  - by eexists.
  - intros n. reflexivity.
  - left. reflexivity.
Defined.

Lemma hello_world_bad_port_witness :
  ∃ body,
    hello_world bad_port "/app" ∅ seeded_db = (Ok (body, 200%Z), seeded_db) ∧
    body !! "status" = Some (JStr "degraded") ∧
    body !! "error" =
      Some (JStr ("Database initialization failed: "
                  +:+ int_error (getenv bad_port "DB_PORT" "3306"))) ∧
    body !! "random_fact" = None.
Proof.
  apply (hello_world_bad_port bad_port "/app" ∅ seeded_db);
    [reflexivity | discriminate].
Defined.

Example version_hidden_by_unreadable_file :
  let x := hello_world ∅ "/srv"
             {[ "/srv/VERSION" := None; "/app/VERSION" := Some "1a2b3c" ]}
             seeded_db in
  body_of x !! "version" = None.
Proof. vm_compute. reflexivity. Qed.

(** ** End to end *)

(** On a fresh database the first request creates the table, seeds it and
    answers with a seeded fact. *)
Example first_request_on_fresh_database :
  let x := hello_world ∅ "/app" ∅ (a_world None no_fault) in
  code_of x = Some 200%Z ∧
  table x.2 = Some facts ∧
  body_of x !! "status" = Some (JStr "healthy") ∧
  body_of x !! "database" =
    Some (JObj {[ "host" := JStr "localhost"; "name" := JStr "hello_world" ]}) ∧
  body_of x !! "random_fact" =
    Some (JStr "There are more possible games of chess than atoms in the observable universe.").
Proof. cbv zeta. repeat split; vm_compute; reflexivity. Qed.

(** When the table stays empty the healthy response carries the
    placeholder. *)
Example request_with_empty_table :
  let x := hello_world ∅ "/app" ∅ seeding_fails in
  code_of x = Some 200%Z ∧
  table x.2 = Some [] ∧
  body_of x !! "status" = Some (JStr "healthy") ∧
  body_of x !! "random_fact" = Some (JStr placeholder).
Proof. cbv zeta. repeat split; vm_compute; reflexivity. Qed.

(** When the server cannot be reached the response is degraded and has no
    fact; the version file, when readable, is echoed stripped. *)
Example request_with_server_down :
  let x := hello_world ∅ "/srv" {[ "/app/VERSION" := Some " 1a2b3c " ]} down in
  code_of x = Some 200%Z ∧
  body_of x !! "status" = Some (JStr "degraded") ∧
  body_of x !! "error" =
    Some (JStr "Database initialization failed: 2003: Can't connect to MySQL server") ∧
  body_of x !! "random_fact" = None ∧
  body_of x !! "version" = Some (JStr "1a2b3c").
Proof. cbv zeta. repeat split; vm_compute; reflexivity. Qed.

(** ** Start-up *)

Example main_with_server_down :
  script (λ _ _ _, ret tt) ∅ down
    = (Returned, (init_database ∅ down).2) ∧
  script (λ _ _ _, ret tt) {[ "PORT" := "http" ]} down
    = (Exited 1, (init_database ∅ down).2).
Proof. split; vm_compute; reflexivity. Qed.
